(** * lut-generator: the colour pipeline, the .cube serializer, the free-text
      parameter extractor and the image analyser, embedded from
      [src/lib/lut-generator.ts] and [src/lib/image-analysis.ts].

    A JavaScript [number] is an IEEE-754 binary64 value.  The numeric code is
    therefore embedded with the same text for three readings of [number]:

    - [F64] runs it on Rocq's primitive binary64 floats, bit for bit as a
      JavaScript engine does (signed zeros, infinities and NaN included);
      the one value that ECMAScript leaves to the engine, the rounding of
      [Math.pow] where it is "implementation-approximated", is a parameter;
    - [Ideal] reads the same arithmetic over the real numbers, which is the
      semantics in which the range and identity statements are universally
      provable; it agrees with the code wherever no division by zero occurs;
    - [Checked] is the real-number reading with the undefined cases kept: a
      division by zero or a power outside its domain yields no value, so a
      result of [Checked] certifies that the real computation is defined.

    The string-level code (regular expressions, [parseFloat], [toFixed]) is
    embedded once and shared. *)

From Stdlib Require Import Floats ZArith Reals Lra Lia List Bool.
From Stdlib Require Import Ascii String DecimalString.
From Stdlib Require DecimalFacts DecimalPos.
Import ListNotations.

Set Warnings "-inexact-float,-notation-for-abbreviation,-abstract-large-number".

(** ** Data model *)

(** [{ r: number; g: number; b: number }] *)
Module RGB.
Record t (num : Type) : Type := mk { r : num; g : num; b : num }.
Arguments mk {num} _ _ _.
Arguments r {num} _.
Arguments g {num} _.
Arguments b {num} _.
End RGB.
Notation RGB := RGB.t.
Notation mkRGB := RGB.mk.

(** [interface LUTParams] *)
Module LUTParams.
Record t (num : Type) : Type := mk {
  contrast : num;
  saturation : num;
  temperature : num;
  tint : num;
  shadows : num;
  highlights : num;
  lift : RGB num;
  gamma : RGB num;
  gain : RGB num
}.
Arguments mk {num} _ _ _ _ _ _ _ _ _.
Arguments contrast {num} _.
Arguments saturation {num} _.
Arguments temperature {num} _.
Arguments tint {num} _.
Arguments shadows {num} _.
Arguments highlights {num} _.
Arguments lift {num} _.
Arguments gamma {num} _.
Arguments gain {num} _.
End LUTParams.
Notation LUTParams := LUTParams.t.
Notation mkLUTParams := LUTParams.mk.

(** The keys of the six scalar controls and of the three colour wheels. *)
Module ScalarKey.
Inductive t : Type :=
  contrast | saturation | temperature | tint | shadows | highlights.
End ScalarKey.

Module RGBKey.
Inductive t : Type := lift | gamma | gain.
End RGBKey.

(** [Partial<LUTParams>]: every field may be absent. *)
Module PartialLUTParams.
Record t (num : Type) : Type := mk {
  contrast : option num;
  saturation : option num;
  temperature : option num;
  tint : option num;
  shadows : option num;
  highlights : option num;
  lift : option (RGB num);
  gamma : option (RGB num);
  gain : option (RGB num)
}.
Arguments mk {num} _ _ _ _ _ _ _ _ _.
Arguments contrast {num} _.
Arguments saturation {num} _.
Arguments temperature {num} _.
Arguments tint {num} _.
Arguments shadows {num} _.
Arguments highlights {num} _.
Arguments lift {num} _.
Arguments gamma {num} _.
Arguments gain {num} _.

(** [{}] *)
Definition empty {num : Type} : t num :=
  mk None None None None None None None None None.

(** [params[key]] for a scalar key *)
Definition getScalar {num : Type} (key : ScalarKey.t) (p : t num)
  : option num :=
  match key with
  | ScalarKey.contrast => contrast p
  | ScalarKey.saturation => saturation p
  | ScalarKey.temperature => temperature p
  | ScalarKey.tint => tint p
  | ScalarKey.shadows => shadows p
  | ScalarKey.highlights => highlights p
  end.

(** [params[key] = v] for a scalar key *)
Definition setScalar {num : Type} (key : ScalarKey.t) (v : num) (p : t num)
  : t num :=
  match p with
  | mk c s te ti sh hi l ga gn =>
      match key with
      | ScalarKey.contrast => mk (Some v) s te ti sh hi l ga gn
      | ScalarKey.saturation => mk c (Some v) te ti sh hi l ga gn
      | ScalarKey.temperature => mk c s (Some v) ti sh hi l ga gn
      | ScalarKey.tint => mk c s te (Some v) sh hi l ga gn
      | ScalarKey.shadows => mk c s te ti (Some v) hi l ga gn
      | ScalarKey.highlights => mk c s te ti sh (Some v) l ga gn
      end
  end.

Definition getRGB {num : Type} (key : RGBKey.t) (p : t num)
  : option (RGB num) :=
  match key with
  | RGBKey.lift => lift p
  | RGBKey.gamma => gamma p
  | RGBKey.gain => gain p
  end.

Definition setRGB {num : Type} (key : RGBKey.t) (v : RGB num) (p : t num)
  : t num :=
  match p with
  | mk c s te ti sh hi l ga gn =>
      match key with
      | RGBKey.lift => mk c s te ti sh hi (Some v) ga gn
      | RGBKey.gamma => mk c s te ti sh hi l (Some v) gn
      | RGBKey.gain => mk c s te ti sh hi l ga (Some v)
      end
  end.
End PartialLUTParams.

(** [type LUTOutputFormat = 'standard' | 'hevc'] *)
Inductive LUTOutputFormat : Type := standard | hevc.

(** ** Strings, regular expressions and number syntax

    A JavaScript string is a sequence of UTF-16 code units; a Rocq [ascii]
    stands for the code unit of the same number, so [string] covers the
    strings whose code units are below 256. *)

Module Text.

Definition code (c : ascii) : N := N_of_ascii c.

Definition inRange (lo hi : N) (c : ascii) : bool :=
  (lo <=? code c)%N && (code c <=? hi)%N.

Definition isChar (x : ascii) (c : ascii) : bool := Ascii.eqb x c.

(** [\d] *)
Definition isDigit (c : ascii) : bool := inRange 48 57 c.

(** [\s] restricted to code units below 256: TAB, LF, VT, FF, CR, space and
    the no-break space. *)
Definition isSpace (c : ascii) : bool :=
  inRange 9 13 c || isChar " " c || (code c =? 160)%N.

(** [[:\s]] *)
Definition colonOrSpace (c : ascii) : bool := isChar ":" c || isSpace c.
(** [[,\s]] *)
Definition commaOrSpace (c : ascii) : bool := isChar "," c || isSpace c.
(** [[+-]] *)
Definition signChar (c : ascii) : bool := isChar "+" c || isChar "-" c.
(** [[\d.]] *)
Definition digitOrDot (c : ascii) : bool := isDigit c || isChar "." c.

(** Case folding of the [i] flag; only ASCII letters fold onto the ASCII
    letters of the patterns. *)
Definition toLower (c : ascii) : ascii :=
  if inRange 65 90 c then ascii_of_N (code c + 32) else c.

(** The fragment of the regular-expression language the patterns use. *)
Inductive regex : Type :=
| Lit (s : string)            (* literal text, matched ignoring case *)
| Cls (p : ascii -> bool)     (* one character of a class *)
| Star (p : ascii -> bool)    (* class*, greedy *)
| Plus (p : ascii -> bool)    (* class+, greedy *)
| Opt (r : regex)             (* r?, greedy *)
| Seq (r1 r2 : regex)
| Cap (r : regex).            (* capturing group *)

Declare Scope regex_scope.
Delimit Scope regex_scope with re.
Bind Scope regex_scope with regex.
Infix ";;" := Seq (at level 61, right associativity) : regex_scope.

(** [stripPrefix s input]: the rest of [input] after [s], ignoring case. *)
Fixpoint stripPrefix (s input : string) : option string :=
  match s, input with
  | EmptyString, _ => Some input
  | String _ _, EmptyString => None
  | String a s', String c input' =>
      if Ascii.eqb (toLower a) (toLower c) then stripPrefix s' input' else None
  end.

(** [consumed input rest]: the prefix of [input] that was read to reach
    [rest]. *)
Definition consumed (input rest : string) : string :=
  substring 0 (String.length input - String.length rest) input.

Section Matcher.
Context {A : Type}.

(** Greedy repetition of a class with backtracking: the longest run is tried
    first, then shorter ones. *)
Fixpoint matchStar (p : ascii -> bool) (input : string)
    (k : string -> option A) : option A :=
  match input with
  | String c rest =>
      if p c then
        match matchStar p rest k with
        | Some res => Some res
        | None => k input
        end
      else k input
  | EmptyString => k input
  end.

(** Backtracking matcher in continuation-passing style.  [caps] collects the
    text of the capturing groups in the order they close. *)
Fixpoint matchAt (re : regex) (input : string) (caps : list string)
    (k : string -> list string -> option A) : option A :=
  match re with
  | Lit s =>
      match stripPrefix s input with
      | Some rest => k rest caps
      | None => None
      end
  | Cls p =>
      match input with
      | String c rest => if p c then k rest caps else None
      | EmptyString => None
      end
  | Star p => matchStar p input (fun rest => k rest caps)
  | Plus p =>
      match input with
      | String c rest =>
          if p c then matchStar p rest (fun rest' => k rest' caps) else None
      | EmptyString => None
      end
  | Opt r =>
      match matchAt r input caps k with
      | Some res => Some res
      | None => k input caps
      end
  | Seq r1 r2 =>
      matchAt r1 input caps (fun rest caps' => matchAt r2 rest caps' k)
  | Cap r =>
      matchAt r input caps
        (fun rest caps' => k rest (caps' ++ [consumed input rest]))
  end.
End Matcher.

(** [input.match(re)] for a pattern without the [g] flag: the capture groups
    of the leftmost match, or [None] for [null]. *)
Fixpoint regexMatch (re : regex) (input : string) : option (list string) :=
  match matchAt re input [] (fun _ caps => Some caps) with
  | Some caps => Some caps
  | None =>
      match input with
      | String _ rest => regexMatch re rest
      | EmptyString => None
      end
  end.

(** [([+-]?[\d.]+)] *)
Definition signedNumber : regex := Cap (Opt (Cls signChar) ;; Plus digitOrDot).

(** [/<label>[:\s]*([+-]?[\d.]+)/i] *)
Definition scalarPattern (label : regex) : regex :=
  (label ;; Star colonOrSpace ;; signedNumber)%re.

(** [/<label>[:\s]*(?:rgb)?[:\s]*\(?([+-]?[\d.]+)[,\s]+([+-]?[\d.]+)[,\s]+([+-]?[\d.]+)\)?/i] *)
Definition rgbPattern (label : regex) : regex :=
  (label ;; Star colonOrSpace ;; Opt (Lit "rgb") ;; Star colonOrSpace ;;
   Opt (Cls (isChar "(")) ;;
   signedNumber ;; Plus commaOrSpace ;;
   signedNumber ;; Plus commaOrSpace ;;
   signedNumber ;; Opt (Cls (isChar ")")))%re.

(** *** Decimal numbers *)

(** The value read by [parseFloat]: sign, decimal digits as a natural
    number, and how many of the digits stand after the point. *)
Record decimal : Type := mkDecimal {
  negative : bool;
  digits : N;
  scale : nat
}.

(** Reads the longest run of decimal digits: their value appended to [acc],
    how many were read, and the rest. *)
Fixpoint readDigits (input : string) (acc : N) (count : nat)
  : N * nat * string :=
  match input with
  | String c rest =>
      if isDigit c then readDigits rest (acc * 10 + (code c - 48))%N (S count)
      else (acc, count, input)
  | EmptyString => (acc, count, input)
  end.

(** [parseFloat] on text made of an optional sign, digits and dots (the
    capture groups above hold nothing else): the longest prefix that is a
    decimal literal -- [12], [12.], [12.5] or [.5] -- or [None] for NaN. *)
Definition parseFloat (input : string) : option decimal :=
  let '(neg, body) :=
    match input with
    | String "+" rest => (false, rest)
    | String "-" rest => (true, rest)
    | _ => (false, input)
    end in
  let '(int, intCount, rest) := readDigits body 0%N 0%nat in
  match rest with
  | String "." frac =>
      let '(all, fracCount, _) := readDigits frac int 0%nat in
      match intCount, fracCount with
      | O, O => None
      | _, _ => Some (mkDecimal neg all fracCount)
      end
  | _ =>
      match intCount with
      | O => None
      | _ => Some (mkDecimal neg int O)
      end
  end.

(** *** Printing *)

(** The decimal digits of a natural number, as [Number::toString] prints an
    integer. *)
Definition digitsOf (n : N) : string :=
  NilZero.string_of_uint (N.to_uint n).

Fixpoint zeros (k : nat) : string :=
  match k with
  | O => EmptyString
  | S k' => String "0" (zeros k')
  end.

(** Steps 9-10 of [Number.prototype.toFixed] for [f] fraction digits: [n] is
    the integer nearest to [x * 10^f]; its digits are padded with zeros to
    [f + 1] characters and the point is put before the last [f]. *)
Definition fixedDigits (f : nat) (n : N) : string :=
  let m := digitsOf n in
  let m := (zeros (S f - String.length m) ++ m)%string in
  let k := String.length m in
  (substring 0 (k - f) m ++ "." ++ substring (k - f) f m)%string.

Definition quote : string := String "034" EmptyString.
Definition newline : string := String "010" EmptyString.

(** [lines.join('\n')] *)
Definition joinLines (lines : list string) : string :=
  String.concat newline lines.

End Text.

(** ** Code that does not depend on how numbers are represented

    [parseAIResponse] and [generateCubeLUT] are written once; the numeric
    steps they call are supplied by [F64] and [Ideal] below. *)

Module Parser.
Import Text.

(** The [patterns] table of [parseAIResponse]. *)
Definition patterns : list (ScalarKey.t * regex) :=
  [ (ScalarKey.contrast, scalarPattern (Lit "contrast"));
    (ScalarKey.saturation, scalarPattern (Lit "saturation"));
    (ScalarKey.temperature, scalarPattern (Lit "temperature"));
    (ScalarKey.tint, scalarPattern (Lit "tint"));
    (ScalarKey.shadows, scalarPattern (Lit "shadow" ;; Opt (Lit "s")));
    (ScalarKey.highlights, scalarPattern (Lit "highlight" ;; Opt (Lit "s"))) ].

(** The [rgbPatterns] table of [parseAIResponse]. *)
Definition rgbPatterns : list (RGBKey.t * regex) :=
  [ (RGBKey.lift, rgbPattern (Lit "lift"));
    (RGBKey.gamma, rgbPattern (Lit "gamma"));
    (RGBKey.gain, rgbPattern (Lit "gain")) ].

Section Generic.
Context {num : Type}.
(** [parseFloat(text)], with [None] when [isNaN] holds of the result *)
Variable parseNumber : string -> option num.
(** [clamp(value / (Math.abs(value) > 1 ? 100 : 1)) * (value < 0 ? -1 : 1)] *)
Variable scalarValue : num -> num.
(** [Math.max(-1, Math.min(1, c / (Math.abs(c) > 1 ? 100 : 1)))] *)
Variable channelValue : num -> num.

(** One turn of the first loop. *)
Definition scalarStep (response : string) (params : PartialLUTParams.t num)
    (entry : ScalarKey.t * regex) : PartialLUTParams.t num :=
  let '(key, pattern) := entry in
  match regexMatch pattern response with
  | Some (m1 :: _) =>
      match parseNumber m1 with
      | Some value =>
          PartialLUTParams.setScalar key (scalarValue value) params
      | None => params
      end
  | _ => params
  end.

(** One turn of the second loop. *)
Definition rgbStep (response : string) (params : PartialLUTParams.t num)
    (entry : RGBKey.t * regex) : PartialLUTParams.t num :=
  let '(key, pattern) := entry in
  match regexMatch pattern response with
  | Some (m1 :: m2 :: m3 :: _) =>
      match parseNumber m1, parseNumber m2, parseNumber m3 with
      | Some r, Some g, Some b =>
          PartialLUTParams.setRGB key
            (mkRGB (channelValue r) (channelValue g) (channelValue b)) params
      | _, _, _ => params
      end
  | _ => params
  end.

Definition parseAIResponse (response : string) : PartialLUTParams.t num :=
  let params := PartialLUTParams.empty in
  let params := fold_left (scalarStep response) patterns params in
  let params := fold_left (rgbStep response) rgbPatterns params in
  params.

End Generic.
End Parser.

Module Cube.
Import Text.
Open Scope string_scope.

(** The three nested [for] loops: blue outermost, red innermost. *)
Definition cubeLoop {A : Type} (size : nat) (body : nat -> nat -> nat -> A)
  : list A :=
  flat_map (fun b =>
    flat_map (fun g =>
      map (fun r => body r g b) (seq 0 size))
      (seq 0 size))
    (seq 0 size).

Section Generic.
Context {num : Type}.
(** [i / (size - 1)] for a loop counter [i] *)
Variable gridInput : nat -> nat -> num.
Variable transformColor : num -> num -> num -> LUTParams num -> num * num * num.
Variable transformColorHEVC : num -> num -> num -> LUTParams num -> num * num * num.
(** [x.toFixed(6)] *)
Variable toFixed6 : num -> string.

Definition header (title : string) (size : nat) (format : LUTOutputFormat)
  : list string :=
  [ "TITLE " ++ quote ++ title ++ quote;
    "";
    "# Generated by LUT Generator" ]
  ++ match format with
     | hevc =>
         [ "# HEVC-Compatible: Optimized for Apple HEVC/H.265 footage";
           "# Compensates for limited range (16-235) and gamma differences" ]
     | standard => []
     end
  ++ [ "# Compatible with: Final Cut Pro, Premiere Pro, DaVinci Resolve, After Effects";
       "";
       "LUT_3D_SIZE " ++ digitsOf (N.of_nat size);
       "";
       "DOMAIN_MIN 0.0 0.0 0.0";
       "DOMAIN_MAX 1.0 1.0 1.0";
       "" ].

(** The colour sampled at loop counters [r], [g], [b]. *)
Definition sample (params : LUTParams num) (size : nat)
    (format : LUTOutputFormat) (r g b : nat) : num * num * num :=
  let rIn := gridInput size r in
  let gIn := gridInput size g in
  let bIn := gridInput size b in
  match format with
  | hevc => transformColorHEVC rIn gIn bIn params
  | standard => transformColor rIn gIn bIn params
  end.

(** The body of the innermost loop: the line pushed for [r], [g], [b]. *)
Definition dataLine (params : LUTParams num) (size : nat)
    (format : LUTOutputFormat) (r g b : nat) : string :=
  let '(rOut, gOut, bOut) := sample params size format r g b in
  toFixed6 rOut ++ " " ++ toFixed6 gOut ++ " " ++ toFixed6 bOut.

Definition dataLines (params : LUTParams num) (size : nat)
    (format : LUTOutputFormat) : list string :=
  cubeLoop size (dataLine params size format).

(** The array [lines] just before it is joined. *)
Definition cubeLines (params : LUTParams num) (title : string) (size : nat)
    (format : LUTOutputFormat) : list string :=
  header title size format ++ dataLines params size format.

Definition generateCubeLUT (params : LUTParams num) (title : string)
    (size : nat) (format : LUTOutputFormat) : string :=
  joinLines (cubeLines params title size format).

End Generic.
End Cube.

(** The histogram pass of [analyzeImageData]: integer bin counts, which are
    exact in binary64 and therefore shared by both number models. *)
Module Histogram.

(** [{ r: number[]; g: number[]; b: number[]; luminance: number[] }] *)
Record t (A : Type) : Type := mk {
  r : list A; g : list A; b : list A; luminance : list A
}.
Arguments mk {A} _ _ _ _.
Arguments r {A} _.
Arguments g {A} _.
Arguments b {A} _.
Arguments luminance {A} _.

(** One pixel of the dense RGBA buffer [imageData.data], which the loops
    walk four bytes at a time. *)
Record Pixel : Type := mkPixel {
  red : Byte.byte; green : Byte.byte; blue : Byte.byte; alpha : Byte.byte
}.

Definition index (c : Byte.byte) : nat := N.to_nat (Byte.to_N c).

(** [new Array(256).fill(0)] *)
Definition zeroBins : list nat := repeat 0%nat 256.

(** [bins[i]++].  Past the end of the array JavaScript would store NaN in a
    new element, which makes the later [Math.max(...)] NaN and leaves the
    histogram unnormalised; that outcome is [None] here. *)
Fixpoint increment (i : nat) (bins : list nat) : option (list nat) :=
  match bins, i with
  | [], _ => None
  | v :: rest, O => Some (S v :: rest)
  | v :: rest, S i' => option_map (cons v) (increment i' rest)
  end.

Section Count.
(** [Math.floor(lum * 255)] for the pixel's luminance, as an array index
    ([None] when it is not one). *)
Variable lumIndex : Byte.byte -> Byte.byte -> Byte.byte -> option nat.

(** The histogram update of one turn of the pixel loop. *)
Definition countPixel (h : t nat) (px : Pixel) : option (t nat) :=
  match increment (index (red px)) (r h),
        increment (index (green px)) (g h),
        increment (index (blue px)) (b h),
        lumIndex (red px) (green px) (blue px) with
  | Some hr, Some hg, Some hb, Some i =>
      match increment i (luminance h) with
      | Some hl => Some (mk hr hg hb hl)
      | None => None
      end
  | _, _, _, _ => None
  end.

Fixpoint countPixels (h : t nat) (data : list Pixel) : option (t nat) :=
  match data with
  | [] => Some h
  | px :: rest =>
      match countPixel h px with
      | Some h' => countPixels h' rest
      | None => None
      end
  end.

Definition counts (data : list Pixel) : option (t nat) :=
  countPixels (mk zeroBins zeroBins zeroBins zeroBins) data.
End Count.

(** [Math.max(...histogram.r, ...histogram.g, ...histogram.b,
    ...histogram.luminance)] *)
Definition maxHistValue (h : t nat) : nat :=
  list_max (r h ++ g h ++ b h ++ luminance h).

(** The [if (maxHistValue > 0)] block, for a division [scale v m] standing
    for [v / maxHistValue]. *)
Definition normalize {num : Type} (scale : nat -> nat -> num)
    (ofCount : nat -> num) (h : t nat) : t num :=
  let m := maxHistValue h in
  if (0 <? m)%nat then
    mk (map (fun v => scale v m) (r h))
       (map (fun v => scale v m) (g h))
       (map (fun v => scale v m) (b h))
       (map (fun v => scale v m) (luminance h))
  else
    mk (map ofCount (r h)) (map ofCount (g h))
       (map ofCount (b h)) (map ofCount (luminance h)).

End Histogram.

(** The fields of [interface ImageAnalysis] that [analysisToLUTParams]
    reads; [dominantColors] and [histogram] are not used by it. *)
Module ImageAnalysis.
Record t (num : Type) : Type := mk {
  averageColor : RGB num;
  brightness : num;
  contrast : num;
  saturation : num;
  temperature : num
}.
Arguments mk {num} _ _ _ _ _.
Arguments averageColor {num} _.
Arguments brightness {num} _.
Arguments contrast {num} _.
Arguments saturation {num} _.
Arguments temperature {num} _.
End ImageAnalysis.

(** ** The numeric code on binary64 *)

Module F64.

Open Scope float_scope.

Definition num : Type := float.

(** [Math.max(a, b)]: NaN if either argument is NaN, and [+0] is larger
    than [-0]. *)
Definition Math_max (a b : num) : num :=
  if is_nan a || is_nan b then nan
  else if a <? b then b
  else if b <? a then a
  else if get_sign a then b else a.

(** [Math.min(a, b)]: NaN if either argument is NaN, and [-0] is smaller
    than [+0]. *)
Definition Math_min (a b : num) : num :=
  if is_nan a || is_nan b then nan
  else if a <? b then a
  else if b <? a then b
  else if get_sign a then a else b.

(** Whether a [number] is an integer, and whether it is an odd integer. *)
Definition isInteger (x : num) : bool :=
  match Prim2SF x with
  | S754_zero _ => true
  | S754_finite _ m e =>
      ((0 <=? e)%Z || (Z.land (Zpos m) (Z.ones (- e)) =? 0)%Z)%bool
  | _ => false
  end.

Definition isOddInteger (x : num) : bool :=
  match Prim2SF x with
  | S754_finite _ m e =>
      if (0 <? e)%Z then false
      else ((Z.land (Zpos m) (Z.ones (- e)) =? 0)%Z
            && Z.odd (Z.shiftr (Zpos m) (- e)))%bool
  | _ => false
  end.

Section Engine.

(** The value [Math.pow] returns for a finite base and a finite exponent,
    both different from zero: ECMAScript (Number::exponentiate, last step)
    calls it "implementation-approximated" and leaves its rounding to the
    engine, so it is a parameter of everything that follows. *)
Variable approx : num -> num -> num.

(** [Math.pow(base, exponent)], step by step as Number::exponentiate.  In
    the approximated case every engine's libm returns the two results that
    need no rounding, [base] for the exponent 1 and 1 for the base 1. *)
Definition Math_pow (base exponent : num) : num :=
  if is_nan exponent then nan
  else if is_zero exponent then 1
  else if is_nan base then nan
  else if is_infinity base then
    if get_sign base then
      if 0 <? exponent
      then (if isOddInteger exponent then neg_infinity else infinity)
      else (if isOddInteger exponent then neg_zero else 0)
    else (if 0 <? exponent then infinity else 0)
  else if is_zero base then
    if get_sign base then
      if 0 <? exponent
      then (if isOddInteger exponent then neg_zero else 0)
      else (if isOddInteger exponent then neg_infinity else infinity)
    else (if 0 <? exponent then 0 else infinity)
  else if is_infinity exponent then
    if 1 <? abs base then (if get_sign exponent then 0 else infinity)
    else if abs base =? 1 then nan
    else (if get_sign exponent then infinity else 0)
  else if (if base <? 0 then negb (isInteger exponent) else false) then nan
  else if exponent =? 1 then base
  else if base =? 1 then 1
  else approx base exponent.

Definition defaultParams : LUTParams num :=
  mkLUTParams 0 0 0 0 0 0 (mkRGB 0 0 0) (mkRGB 0 0 0) (mkRGB 0 0 0).

(** [function clamp(value)]: [Math.max(0, Math.min(1, value))] *)
Definition clamp (value : num) : num :=
  Math_max 0 (Math_min 1 value).

Definition applyContrast (value contrast : num) : num :=
  let factor := (1 + contrast) / (1 - contrast * 0.99) in
  clamp ((value - 0.5) * factor + 0.5).

Definition applySaturation (r g b saturation : num) : num * num * num :=
  let luminance := 0.299 * r + 0.587 * g + 0.114 * b in
  let factor := 1 + saturation in
  (clamp (luminance + (r - luminance) * factor),
   clamp (luminance + (g - luminance) * factor),
   clamp (luminance + (b - luminance) * factor)).

Definition applyTemperature (r g b temp tint : num) : num * num * num :=
  let tempFactor := temp * 0.1 in
  let tintFactor := tint * 0.05 in
  (clamp (r + tempFactor),
   clamp (g - tintFactor),
   clamp (b - tempFactor)).

Definition liftScale : num := 0.1.
Definition gammaScale : num := 0.2.
Definition gainScale : num := 0.2.

(** The inner [applyChannel] of [applyLiftGammaGain]. *)
Definition lggChannel (value liftVal gammaVal gainVal : num) : num :=
  let result := value + liftVal * liftScale * (1 - value) in
  let gammaPower := 1 / (1 + gammaVal * gammaScale) in
  let result := Math_pow (Math_max 0 result) gammaPower in
  let result := result * (1 + gainVal * gainScale) in
  clamp result.

Definition applyLiftGammaGain (r g b : num) (lift gamma gain : RGB num)
  : num * num * num :=
  (lggChannel r lift.(RGB.r) gamma.(RGB.r) gain.(RGB.r),
   lggChannel g lift.(RGB.g) gamma.(RGB.g) gain.(RGB.g),
   lggChannel b lift.(RGB.b) gamma.(RGB.b) gain.(RGB.b)).

(** The inner [applyChannel] of [applyShadowsHighlights]; [value] is
    reassigned by the first branch before the second test reads it. *)
Definition shChannel (shadows highlights value : num) : num :=
  let value :=
    if (value <? 0.5) && negb (shadows =? 0) then
      let shadowMask := 1 - (value / 0.5) in
      clamp (value + shadows * 0.15 * shadowMask)
    else value in
  let value :=
    if (0.5 <? value) && negb (highlights =? 0) then
      let highlightMask := (value - 0.5) / 0.5 in
      clamp (value + highlights * 0.15 * highlightMask)
    else value in
  value.

Definition applyShadowsHighlights (r g b shadows highlights : num)
  : num * num * num :=
  (shChannel shadows highlights r,
   shChannel shadows highlights g,
   shChannel shadows highlights b).

Definition limitedToFull (value : num) : num :=
  clamp ((value - 0.0627) / (0.9216 - 0.0627)).

Definition fullToLimited (value : num) : num :=
  clamp (value * (0.9216 - 0.0627) + 0.0627).

Definition hevcGamma : num := 1.96.
Definition standardGamma : num := 2.2.

Definition applyHEVCGammaCompensation (value : num) : num :=
  let linear := Math_pow (Math_max 0 value) hevcGamma in
  Math_pow linear (1 / standardGamma).

Definition applyInverseHEVCGammaCompensation (value : num) : num :=
  let linear := Math_pow (Math_max 0 value) standardGamma in
  Math_pow linear (1 / hevcGamma).

Definition transformColor (rIn gIn bIn : num) (params : LUTParams num)
  : num * num * num :=
  let '(r, g, b) :=
    applyLiftGammaGain rIn gIn bIn params.(LUTParams.lift)
      params.(LUTParams.gamma) params.(LUTParams.gain) in
  let '(r, g, b) :=
    applyShadowsHighlights r g b params.(LUTParams.shadows)
      params.(LUTParams.highlights) in
  let '(r, g, b) :=
    applyTemperature r g b params.(LUTParams.temperature)
      params.(LUTParams.tint) in
  let r := applyContrast r params.(LUTParams.contrast) in
  let g := applyContrast g params.(LUTParams.contrast) in
  let b := applyContrast b params.(LUTParams.contrast) in
  applySaturation r g b params.(LUTParams.saturation).

Definition transformColorHEVC (rIn gIn bIn : num) (params : LUTParams num)
  : num * num * num :=
  let r := limitedToFull rIn in
  let g := limitedToFull gIn in
  let b := limitedToFull bIn in
  let r := applyHEVCGammaCompensation r in
  let g := applyHEVCGammaCompensation g in
  let b := applyHEVCGammaCompensation b in
  let '(rGraded, gGraded, bGraded) := transformColor r g b params in
  let r := applyInverseHEVCGammaCompensation rGraded in
  let g := applyInverseHEVCGammaCompensation gGraded in
  let b := applyInverseHEVCGammaCompensation bGraded in
  let r := fullToLimited r in
  let g := fullToLimited g in
  let b := fullToLimited b in
  (r, g, b).

End Engine.

(** *** Numbers from and to text *)

(** An integer as a [number] (exact below 2^53, rounded to nearest above). *)
Definition ofZ (z : Z) : num := SF2Prim (binary_normalize prec emax z 0 false).
Definition ofNat (n : nat) : num := ofZ (Z.of_nat n).

(** The [number] nearest to a decimal literal: the correctly rounded quotient
    of its digits by a power of ten. *)
Definition ofDecimal (d : Text.decimal) : num :=
  let magnitude :=
    match Text.digits d with
    | N0 => S754_zero false
    | Npos m =>
        SFdiv prec emax (S754_finite false m 0)
          (S754_finite false (Z.to_pos (10 ^ Z.of_nat (Text.scale d))) 0)
    end in
  let x := SF2Prim magnitude in
  if Text.negative d then - x else x.

(** [parseFloat(text)] *)
Definition parseFloat (text : string) : num :=
  match Text.parseFloat text with
  | Some d => ofDecimal d
  | None => nan
  end.

(** [Math.floor(x)] as an integer, when [x] is finite. *)
Definition floorZ (x : num) : option Z :=
  match Prim2SF x with
  | S754_zero _ => Some 0%Z
  | S754_finite s m e =>
      let v := if s then Zneg m else Zpos m in
      Some (if (0 <=? e)%Z then Z.shiftl v e else Z.shiftr v (- e))
  | _ => None
  end.

(** [x.toFixed(6)].  The digits are those of the integer [n] nearest to
    [x * 10^6], the larger one on a tie; a negative [x] is printed as ["-"]
    followed by the digits of [-x].  (From 10^21 on JavaScript switches to
    exponent notation, which is not reproduced.) *)
Definition toFixed6 (x : num) : string :=
  match Prim2SF x with
  | S754_nan => "NaN"
  | S754_infinity s => if s then "-Infinity" else "Infinity"
  | S754_zero _ => Text.fixedDigits 6 0
  | S754_finite s m e =>
      let scaled := (Zpos m * 10 ^ 6)%Z in
      let n :=
        if (0 <=? e)%Z then Z.shiftl scaled e
        else ((2 * scaled + 2 ^ (- e)) / 2 ^ (- e + 1))%Z in
      ((if s then "-" else "") ++ Text.fixedDigits 6 (Z.to_N n))%string
  end.

(** *** parseAIResponse *)

Definition parseNumber (text : string) : option num :=
  let value := parseFloat text in
  if negb (is_nan value) then Some value else None.

Definition scalarValue (value : num) : num :=
  clamp (value / (if 1 <? abs value then 100 else 1))
  * (if value <? 0 then -1 else 1).

Definition channelValue (c : num) : num :=
  Math_max (-1) (Math_min 1 (c / (if 1 <? abs c then 100 else 1))).

Definition parseAIResponse : string -> PartialLUTParams.t num :=
  Parser.parseAIResponse parseNumber scalarValue channelValue.

(** *** generateCubeLUT *)

Definition gridInput (size i : nat) : num := ofNat i / (ofNat size - 1).

Definition generateCubeLUT (approx : num -> num -> num)
  : LUTParams num -> string -> nat -> LUTOutputFormat -> string :=
  Cube.generateCubeLUT gridInput (transformColor approx)
    (transformColorHEVC approx) toFixed6.

(** *** image-analysis.ts *)

Definition getLuminance (r g b : num) : num :=
  0.299 * r + 0.587 * g + 0.114 * b.

(** [data[i]] as a number *)
Definition ofByte (c : Byte.byte) : num := ofZ (Z.of_N (Byte.to_N c)).

(** The index [Math.floor(lum * 255)] of the luminance histogram. *)
Definition lumIndex (r g b : Byte.byte) : option nat :=
  let lum := getLuminance (ofByte r / 255) (ofByte g / 255) (ofByte b / 255) in
  match floorZ (lum * 255) with
  | Some z => if (0 <=? z)%Z then Some (Z.to_nat z) else None
  | None => None
  end.

(** The [histogram] field of the result of [analyzeImageData]. *)
Definition analyzeHistogram (data : list Histogram.Pixel)
  : option (Histogram.t num) :=
  option_map
    (Histogram.normalize (fun v m => ofNat v / ofNat m) ofNat)
    (Histogram.counts lumIndex data).

Definition neutralGray : RGB num := mkRGB 0.5 0.5 0.5.

(** [Math.max(-1, Math.min(1, x))] *)
Definition clampSigned (x : num) : num := Math_max (-1) (Math_min 1 x).

Definition analysisToLUTParams (analysis : ImageAnalysis.t num)
  : LUTParams num :=
  let averageColor := analysis.(ImageAnalysis.averageColor) in
  let brightness := analysis.(ImageAnalysis.brightness) in
  let contrast := analysis.(ImageAnalysis.contrast) in
  let saturation := analysis.(ImageAnalysis.saturation) in
  let temperature := analysis.(ImageAnalysis.temperature) in
  let lift :=
    mkRGB ((averageColor.(RGB.r) - neutralGray.(RGB.r)) * 0.3)
          ((averageColor.(RGB.g) - neutralGray.(RGB.g)) * 0.3)
          ((averageColor.(RGB.b) - neutralGray.(RGB.b)) * 0.3) in
  let gamma :=
    mkRGB ((averageColor.(RGB.r) - neutralGray.(RGB.r)) * 0.5)
          ((averageColor.(RGB.g) - neutralGray.(RGB.g)) * 0.5)
          ((averageColor.(RGB.b) - neutralGray.(RGB.b)) * 0.5) in
  let maxChannel :=
    Math_max (Math_max averageColor.(RGB.r) averageColor.(RGB.g))
             averageColor.(RGB.b) in
  let gain :=
    mkRGB ((averageColor.(RGB.r) / maxChannel - 1) * 0.3)
          ((averageColor.(RGB.g) / maxChannel - 1) * 0.3)
          ((averageColor.(RGB.b) / maxChannel - 1) * 0.3) in
  let contrastParam := (contrast - 0.5) * 0.6 in
  let saturationParam := (saturation - 0.3) * 1.5 in
  let temperatureParam := temperature * 0.8 in
  let tintParam :=
    (averageColor.(RGB.g)
     - (averageColor.(RGB.r) + averageColor.(RGB.b)) / 2) * 0.5 in
  let shadowsParam :=
    if brightness <? 0.4 then - (0.4 - brightness) * 0.5 else 0 in
  let highlightsParam :=
    if 0.6 <? brightness then (brightness - 0.6) * 0.5 else 0 in
  mkLUTParams
    (clampSigned contrastParam)
    (clampSigned saturationParam)
    (clampSigned temperatureParam)
    (clampSigned tintParam)
    (clampSigned shadowsParam)
    (clampSigned highlightsParam)
    (mkRGB (clampSigned lift.(RGB.r)) (clampSigned lift.(RGB.g))
           (clampSigned lift.(RGB.b)))
    (mkRGB (clampSigned gamma.(RGB.r)) (clampSigned gamma.(RGB.g))
           (clampSigned gamma.(RGB.b)))
    (mkRGB (clampSigned gain.(RGB.r)) (clampSigned gain.(RGB.g))
           (clampSigned gain.(RGB.b))).

End F64.

(** ** The numeric code over the real numbers

    The same functions with [number] read as a real number.  Division by
    zero, infinities and NaN have no counterpart here: Rocq's division is
    total, so [Ideal] is the reading of the code only where every
    denominator is different from zero and every power has a base that is
    not negative.  [Checked] below keeps track of exactly that, and
    [Checked] and [Ideal] return the same numbers whenever [Checked]
    returns any. *)

Module Ideal.

Open Scope R_scope.

Definition num : Type := R.

Definition ltb (x y : num) : bool := if Rlt_dec x y then true else false.
Definition eqb (x y : num) : bool := if Req_dec_T x y then true else false.
Infix "<?" := ltb (at level 70, no associativity) : R_scope.
Infix "=?" := eqb (at level 70, no associativity) : R_scope.

Definition Math_max (a b : num) : num := Rmax a b.
Definition Math_min (a b : num) : num := Rmin a b.

(** [Math.pow(base, exponent)] where it is a real number: 1 for a zero
    exponent, [exp (exponent * ln base)] for a positive base, and 0 for the
    base 0 with a positive exponent. *)
Definition Math_pow (base exponent : num) : num :=
  if exponent =? 0 then 1
  else if 0 <? base then Rpower base exponent
  else 0.

Definition defaultParams : LUTParams num :=
  mkLUTParams 0 0 0 0 0 0 (mkRGB 0 0 0) (mkRGB 0 0 0) (mkRGB 0 0 0).

Definition clamp (value : num) : num :=
  Math_max 0 (Math_min 1 value).

(** The reading of the code for [1 - contrast * 0.99 <> 0], that is for
    every contrast but 100/99. *)
Definition applyContrast (value contrast : num) : num :=
  let factor := (1 + contrast) / (1 - contrast * 0.99) in
  clamp ((value - 0.5) * factor + 0.5).

Definition applySaturation (r g b saturation : num) : num * num * num :=
  let luminance := 0.299 * r + 0.587 * g + 0.114 * b in
  let factor := 1 + saturation in
  (clamp (luminance + (r - luminance) * factor),
   clamp (luminance + (g - luminance) * factor),
   clamp (luminance + (b - luminance) * factor)).

Definition applyTemperature (r g b temp tint : num) : num * num * num :=
  let tempFactor := temp * 0.1 in
  let tintFactor := tint * 0.05 in
  (clamp (r + tempFactor),
   clamp (g - tintFactor),
   clamp (b - tempFactor)).

Definition liftScale : num := 0.1.
Definition gammaScale : num := 0.2.
Definition gainScale : num := 0.2.

(** The reading of the code for [1 + gammaVal * 0.2 > 0], that is for every
    gamma above -5. *)
Definition lggChannel (value liftVal gammaVal gainVal : num) : num :=
  let result := value + liftVal * liftScale * (1 - value) in
  let gammaPower := 1 / (1 + gammaVal * gammaScale) in
  let result := Math_pow (Math_max 0 result) gammaPower in
  let result := result * (1 + gainVal * gainScale) in
  clamp result.

Definition applyLiftGammaGain (r g b : num) (lift gamma gain : RGB num)
  : num * num * num :=
  (lggChannel r lift.(RGB.r) gamma.(RGB.r) gain.(RGB.r),
   lggChannel g lift.(RGB.g) gamma.(RGB.g) gain.(RGB.g),
   lggChannel b lift.(RGB.b) gamma.(RGB.b) gain.(RGB.b)).

Definition shChannel (shadows highlights value : num) : num :=
  let value :=
    if (value <? 0.5) && negb (shadows =? 0) then
      let shadowMask := 1 - (value / 0.5) in
      clamp (value + shadows * 0.15 * shadowMask)
    else value in
  let value :=
    if (0.5 <? value) && negb (highlights =? 0) then
      let highlightMask := (value - 0.5) / 0.5 in
      clamp (value + highlights * 0.15 * highlightMask)
    else value in
  value.

Definition applyShadowsHighlights (r g b shadows highlights : num)
  : num * num * num :=
  (shChannel shadows highlights r,
   shChannel shadows highlights g,
   shChannel shadows highlights b).

Definition limitedToFull (value : num) : num :=
  clamp ((value - 0.0627) / (0.9216 - 0.0627)).

Definition fullToLimited (value : num) : num :=
  clamp (value * (0.9216 - 0.0627) + 0.0627).

Definition hevcGamma : num := 1.96.
Definition standardGamma : num := 2.2.

Definition applyHEVCGammaCompensation (value : num) : num :=
  let linear := Math_pow (Math_max 0 value) hevcGamma in
  Math_pow linear (1 / standardGamma).

Definition applyInverseHEVCGammaCompensation (value : num) : num :=
  let linear := Math_pow (Math_max 0 value) standardGamma in
  Math_pow linear (1 / hevcGamma).

Definition transformColor (rIn gIn bIn : num) (params : LUTParams num)
  : num * num * num :=
  let '(r, g, b) :=
    applyLiftGammaGain rIn gIn bIn params.(LUTParams.lift)
      params.(LUTParams.gamma) params.(LUTParams.gain) in
  let '(r, g, b) :=
    applyShadowsHighlights r g b params.(LUTParams.shadows)
      params.(LUTParams.highlights) in
  let '(r, g, b) :=
    applyTemperature r g b params.(LUTParams.temperature)
      params.(LUTParams.tint) in
  let r := applyContrast r params.(LUTParams.contrast) in
  let g := applyContrast g params.(LUTParams.contrast) in
  let b := applyContrast b params.(LUTParams.contrast) in
  applySaturation r g b params.(LUTParams.saturation).

Definition transformColorHEVC (rIn gIn bIn : num) (params : LUTParams num)
  : num * num * num :=
  let r := limitedToFull rIn in
  let g := limitedToFull gIn in
  let b := limitedToFull bIn in
  let r := applyHEVCGammaCompensation r in
  let g := applyHEVCGammaCompensation g in
  let b := applyHEVCGammaCompensation b in
  let '(rGraded, gGraded, bGraded) := transformColor r g b params in
  let r := applyInverseHEVCGammaCompensation rGraded in
  let g := applyInverseHEVCGammaCompensation gGraded in
  let b := applyInverseHEVCGammaCompensation bGraded in
  let r := fullToLimited r in
  let g := fullToLimited g in
  let b := fullToLimited b in
  (r, g, b).

(** *** Numbers from and to text *)

Definition ofNat (n : nat) : num := INR n.

Definition ofDecimal (d : Text.decimal) : num :=
  let x := IZR (Z.of_N (Text.digits d)) / 10 ^ Text.scale d in
  if Text.negative d then - x else x.

(** [x.toFixed(6)]: the digits of the integer nearest to [x * 10^6], the
    larger one on a tie, after the sign of a negative [x].  (From 10^21 on
    JavaScript switches to exponent notation, which is not reproduced.) *)
Definition toFixed6 (x : num) : string :=
  let nearest (y : num) : N := Z.to_N (Int_part (y * 10 ^ 6 + / 2)) in
  if x <? 0 then ("-" ++ Text.fixedDigits 6 (nearest (- x)))%string
  else Text.fixedDigits 6 (nearest x).

(** *** parseAIResponse *)

Definition parseNumber (text : string) : option num :=
  option_map ofDecimal (Text.parseFloat text).

Definition scalarValue (value : num) : num :=
  clamp (value / (if 1 <? Rabs value then 100 else 1))
  * (if value <? 0 then -1 else 1).

Definition channelValue (c : num) : num :=
  Math_max (-1) (Math_min 1 (c / (if 1 <? Rabs c then 100 else 1))).

Definition parseAIResponse : string -> PartialLUTParams.t num :=
  Parser.parseAIResponse parseNumber scalarValue channelValue.

(** *** image-analysis.ts *)

(** The [histogram] field of the result of [analyzeImageData]; the bins are
    counted with the binary64 luminance index. *)
Definition analyzeHistogram (data : list Histogram.Pixel)
  : option (Histogram.t num) :=
  option_map
    (Histogram.normalize (fun v m => ofNat v / ofNat m) ofNat)
    (Histogram.counts F64.lumIndex data).

End Ideal.

(** ** The numeric code over the real numbers, undefined cases kept

    A [number] is a real number or nothing.  Nothing marks a computation
    that left the real numbers: it divided by zero (where JavaScript goes on
    with an infinity or with [0 / 0 = NaN]) or took a power outside the
    domain of the real power function; whatever is computed from nothing is
    nothing, and a comparison with nothing is false, as one with NaN is.
    So a result [Some v] certifies that every operation on the way had a
    real value and that [v] is the result; [None] only says that some
    operation had none (JavaScript may still return a number then, as in
    [clamp(Infinity) = 1]). *)

Module Checked.

Open Scope R_scope.

Definition num : Type := option R.

(** A real number as a [number]. *)
Notation real := (@Some R).

Definition map2 (f : R -> R -> R) (x y : num) : num :=
  match x, y with
  | Some a, Some b => Some (f a b)
  | _, _ => None
  end.

Definition add : num -> num -> num := map2 Rplus.
Definition sub : num -> num -> num := map2 Rminus.
Definition mul : num -> num -> num := map2 Rmult.

Definition div (x y : num) : num :=
  match x, y with
  | Some a, Some b => if Ideal.eqb b 0 then None else Some (a / b)
  | _, _ => None
  end.

Definition ltb (x y : num) : bool :=
  match x, y with
  | Some a, Some b => Ideal.ltb a b
  | _, _ => false
  end.

Definition eqb (x y : num) : bool :=
  match x, y with
  | Some a, Some b => Ideal.eqb a b
  | _, _ => false
  end.

Declare Scope checked_scope.
Delimit Scope checked_scope with checked.
Infix "+" := add : checked_scope.
Infix "-" := sub : checked_scope.
Infix "*" := mul : checked_scope.
Infix "/" := div : checked_scope.
Infix "<?" := ltb (at level 70, no associativity) : checked_scope.
Infix "=?" := eqb (at level 70, no associativity) : checked_scope.
Local Open Scope checked_scope.

Definition Math_max : num -> num -> num := map2 Rmax.
Definition Math_min : num -> num -> num := map2 Rmin.

(** [Math.pow(base, exponent)] where it is a real number: 1 for a zero
    exponent, [exp (exponent * ln base)] for a positive base, 0 for the base
    0 with a positive exponent, and the integer power of a negative base. *)
Definition Math_pow (base exponent : num) : num :=
  match base, exponent with
  | Some b, Some e =>
      if Ideal.eqb e 0 then Some 1%R
      else if Ideal.ltb 0 b then Some (Rpower b e)
      else if Ideal.eqb b 0 then (if Ideal.ltb 0 e then Some 0%R else None)
      else if Ideal.eqb (IZR (Int_part e)) e
           then Some (powerRZ b (Int_part e))
           else None
  | _, _ => None
  end.

(** A parameter set of real numbers as a parameter set of [number]s. *)
Definition ofRGB (c : RGB R) : RGB num :=
  mkRGB (real c.(RGB.r)) (real c.(RGB.g)) (real c.(RGB.b)).

Definition ofParams (p : LUTParams R) : LUTParams num :=
  mkLUTParams (real p.(LUTParams.contrast)) (real p.(LUTParams.saturation))
    (real p.(LUTParams.temperature)) (real p.(LUTParams.tint))
    (real p.(LUTParams.shadows)) (real p.(LUTParams.highlights))
    (ofRGB p.(LUTParams.lift)) (ofRGB p.(LUTParams.gamma))
    (ofRGB p.(LUTParams.gain)).

Definition of3 (c : R * R * R) : num * num * num :=
  let '(r, g, b) := c in (real r, real g, real b).

Definition clamp (value : num) : num :=
  Math_max (real 0) (Math_min (real 1) value).

Definition applyContrast (value contrast : num) : num :=
  let factor := (real 1 + contrast) / (real 1 - contrast * real 0.99) in
  clamp ((value - real 0.5) * factor + real 0.5).

Definition applySaturation (r g b saturation : num) : num * num * num :=
  let luminance := real 0.299 * r + real 0.587 * g + real 0.114 * b in
  let factor := real 1 + saturation in
  (clamp (luminance + (r - luminance) * factor),
   clamp (luminance + (g - luminance) * factor),
   clamp (luminance + (b - luminance) * factor)).

Definition applyTemperature (r g b temp tint : num) : num * num * num :=
  let tempFactor := temp * real 0.1 in
  let tintFactor := tint * real 0.05 in
  (clamp (r + tempFactor),
   clamp (g - tintFactor),
   clamp (b - tempFactor)).

Definition liftScale : num := real 0.1.
Definition gammaScale : num := real 0.2.
Definition gainScale : num := real 0.2.

Definition lggChannel (value liftVal gammaVal gainVal : num) : num :=
  let result := value + liftVal * liftScale * (real 1 - value) in
  let gammaPower := real 1 / (real 1 + gammaVal * gammaScale) in
  let result := Math_pow (Math_max (real 0) result) gammaPower in
  let result := result * (real 1 + gainVal * gainScale) in
  clamp result.

Definition applyLiftGammaGain (r g b : num) (lift gamma gain : RGB num)
  : num * num * num :=
  (lggChannel r lift.(RGB.r) gamma.(RGB.r) gain.(RGB.r),
   lggChannel g lift.(RGB.g) gamma.(RGB.g) gain.(RGB.g),
   lggChannel b lift.(RGB.b) gamma.(RGB.b) gain.(RGB.b)).

Definition shChannel (shadows highlights value : num) : num :=
  let value :=
    if (value <? real 0.5) && negb (shadows =? real 0) then
      let shadowMask := real 1 - (value / real 0.5) in
      clamp (value + shadows * real 0.15 * shadowMask)
    else value in
  let value :=
    if (real 0.5 <? value) && negb (highlights =? real 0) then
      let highlightMask := (value - real 0.5) / real 0.5 in
      clamp (value + highlights * real 0.15 * highlightMask)
    else value in
  value.

Definition applyShadowsHighlights (r g b shadows highlights : num)
  : num * num * num :=
  (shChannel shadows highlights r,
   shChannel shadows highlights g,
   shChannel shadows highlights b).

Definition limitedToFull (value : num) : num :=
  clamp ((value - real 0.0627) / (real 0.9216 - real 0.0627)).

Definition fullToLimited (value : num) : num :=
  clamp (value * (real 0.9216 - real 0.0627) + real 0.0627).

Definition hevcGamma : num := real 1.96.
Definition standardGamma : num := real 2.2.

Definition applyHEVCGammaCompensation (value : num) : num :=
  let linear := Math_pow (Math_max (real 0) value) hevcGamma in
  Math_pow linear (real 1 / standardGamma).

Definition applyInverseHEVCGammaCompensation (value : num) : num :=
  let linear := Math_pow (Math_max (real 0) value) standardGamma in
  Math_pow linear (real 1 / hevcGamma).

Definition transformColor (rIn gIn bIn : num) (params : LUTParams num)
  : num * num * num :=
  let '(r, g, b) :=
    applyLiftGammaGain rIn gIn bIn params.(LUTParams.lift)
      params.(LUTParams.gamma) params.(LUTParams.gain) in
  let '(r, g, b) :=
    applyShadowsHighlights r g b params.(LUTParams.shadows)
      params.(LUTParams.highlights) in
  let '(r, g, b) :=
    applyTemperature r g b params.(LUTParams.temperature)
      params.(LUTParams.tint) in
  let r := applyContrast r params.(LUTParams.contrast) in
  let g := applyContrast g params.(LUTParams.contrast) in
  let b := applyContrast b params.(LUTParams.contrast) in
  applySaturation r g b params.(LUTParams.saturation).

Definition transformColorHEVC (rIn gIn bIn : num) (params : LUTParams num)
  : num * num * num :=
  let r := limitedToFull rIn in
  let g := limitedToFull gIn in
  let b := limitedToFull bIn in
  let r := applyHEVCGammaCompensation r in
  let g := applyHEVCGammaCompensation g in
  let b := applyHEVCGammaCompensation b in
  let '(rGraded, gGraded, bGraded) := transformColor r g b params in
  let r := applyInverseHEVCGammaCompensation rGraded in
  let g := applyInverseHEVCGammaCompensation gGraded in
  let b := applyInverseHEVCGammaCompensation bGraded in
  let r := fullToLimited r in
  let g := fullToLimited g in
  let b := fullToLimited b in
  (r, g, b).

(** *** generateCubeLUT *)

Definition ofNat (n : nat) : num := real (INR n).

Definition gridInput (size i : nat) : num := ofNat i / (ofNat size - real 1).

(** [x.toFixed(6)], where [x] has a value. *)
Definition toFixed6 (x : num) : option string :=
  option_map Ideal.toFixed6 x.

(** The line pushed for the loop counters [r], [g], [b], where its three
    numbers have values. *)
Definition dataLine (params : LUTParams num) (size : nat)
    (format : LUTOutputFormat) (r g b : nat) : option string :=
  let '(rOut, gOut, bOut) :=
    Cube.sample gridInput transformColor transformColorHEVC params size
      format r g b in
  match toFixed6 rOut, toFixed6 gOut, toFixed6 bOut with
  | Some rText, Some gText, Some bText =>
      Some (rText ++ " " ++ gText ++ " " ++ bText)%string
  | _, _, _ => None
  end.

(** The lines of a list, where every one of them has a value. *)
Fixpoint allLines (lines : list (option string)) : option (list string) :=
  match lines with
  | [] => Some []
  | Some line :: rest => option_map (cons line) (allLines rest)
  | None :: _ => None
  end.

(** The text returned by [generateCubeLUT], where every number printed in it
    has a value. *)
Definition generateCubeLUT (params : LUTParams num) (title : string)
    (size : nat) (format : LUTOutputFormat) : option string :=
  option_map
    (fun data => Text.joinLines (Cube.header title size format ++ data))
    (allLines (Cube.cubeLoop size (dataLine params size format))).

End Checked.

(** ** Vocabulary of the statements *)

Module Spec.

Open Scope R_scope.

(** A value of [0,1], the range of a colour channel. *)
Definition inUnit (x : R) : Prop := 0 <= x <= 1.

(** A value of [-1,1], the range of every grading control. *)
Definition inSigned (x : R) : Prop := -1 <= x <= 1.

Definition unitRGB (c : R * R * R) : Prop :=
  let '(r, g, b) := c in inUnit r /\ inUnit g /\ inUnit b.

Definition signedRGB (c : RGB R) : Prop :=
  inSigned c.(RGB.r) /\ inSigned c.(RGB.g) /\ inSigned c.(RGB.b).

(** Valid [GradingParameters]: every field lies in [-1,1]. *)
Definition validParams (p : LUTParams R) : Prop :=
  inSigned p.(LUTParams.contrast) /\ inSigned p.(LUTParams.saturation) /\
  inSigned p.(LUTParams.temperature) /\ inSigned p.(LUTParams.tint) /\
  inSigned p.(LUTParams.shadows) /\ inSigned p.(LUTParams.highlights) /\
  signedRGB p.(LUTParams.lift) /\ signedRGB p.(LUTParams.gamma) /\
  signedRGB p.(LUTParams.gain).

(** The perceptual luma [0.299R + 0.587G + 0.114B]. *)
Definition luma (c : R * R * R) : R :=
  let '(r, g, b) := c in 0.299 * r + 0.587 * g + 0.114 * b.

(** The triple that enters the saturation stage of [transformColor]: stages
    1 to 4 of the pipeline. *)
Definition contrastAdjusted (rIn gIn bIn : R) (params : LUTParams R)
  : R * R * R :=
  let '(r, g, b) :=
    Ideal.applyLiftGammaGain rIn gIn bIn params.(LUTParams.lift)
      params.(LUTParams.gamma) params.(LUTParams.gain) in
  let '(r, g, b) :=
    Ideal.applyShadowsHighlights r g b params.(LUTParams.shadows)
      params.(LUTParams.highlights) in
  let '(r, g, b) :=
    Ideal.applyTemperature r g b params.(LUTParams.temperature)
      params.(LUTParams.tint) in
  (Ideal.applyContrast r params.(LUTParams.contrast),
   Ideal.applyContrast g params.(LUTParams.contrast),
   Ideal.applyContrast b params.(LUTParams.contrast)).

(** The nearest value of the legal range [0.0627, 0.9216]. *)
Definition legal (v : R) : R := Rmax 0.0627 (Rmin 0.9216 v).

(** Equality of binary64 triples, channel by channel. *)
Definition eqb3 (x y : float * float * float) : bool :=
  let '(x1, x2, x3) := x in
  let '(y1, y2, y3) := y in
  (PrimFloat.eqb x1 y1 && PrimFloat.eqb x2 y2 && PrimFloat.eqb x3 y3)%bool.

(** [forallb3 l P]: [P] holds of every triple of elements of [l]. *)
Definition forallb3 {B : Type} (l : list B) (P : B -> B -> B -> bool) : bool :=
  forallb (fun x => forallb (fun y => forallb (fun z => P x y z) l) l) l.

(** Two colours that are the same binary64 values, bit for bit. *)
Definition same3 (x y : float * float * float) : bool :=
  let '(x1, x2, x3) := x in
  let '(y1, y2, y3) := y in
  (PrimFloat.Leibniz.eqb x1 y1 && PrimFloat.Leibniz.eqb x2 y2
   && PrimFloat.Leibniz.eqb x3 y3)%bool.

(** An engine for the closed examples.  Each of them reaches [Math.pow] only
    where the result is fixed (an exponent of 0 or 1, a base of 0 or 1), so
    it has the same value for every engine; the value chosen here, NaN,
    would show in the result if it were ever used. *)
Definition sampleEngine : float -> float -> float := fun _ _ => nan.

(** The inputs [i / (size - 1)] of the grid, in loop order. *)
Definition grid (size : nat) : list float :=
  map (F64.gridInput size) (seq 0 size).

(** The binary64 pipeline with neutral parameters returns its input, bit for
    bit, at every sample of the grid of the given size. *)
Definition neutralOnGrid (approx : float -> float -> float) (size : nat)
  : bool :=
  forallb3 (grid size) (fun bIn gIn rIn =>
    same3 (F64.transformColor approx rIn gIn bIn F64.defaultParams)
      (rIn, gIn, bIn)).

(** No input of the grid is NaN. *)
Definition gridNumbers (size : nat) : bool :=
  forallb (fun v => PrimFloat.eqb v v) (grid size).





(** The lines pushed by the three loops of the binary64 [generateCubeLUT]. *)
Definition dataLines64 (approx : float -> float -> float)
    (params : LUTParams float) (size : nat) (format : LUTOutputFormat)
  : list string :=
  Cube.dataLines F64.gridInput (F64.transformColor approx)
    (F64.transformColorHEVC approx) F64.toFixed6 params size format.









(** Every scalar field present in a partial parameter set satisfies [P]. *)
Definition scalarsAll {num : Type} (P : num -> Prop)
    (p : PartialLUTParams.t num) : Prop :=
  forall key v, PartialLUTParams.getScalar key p = Some v -> P v.

(** Every colour field present in a partial parameter set has its three
    channels in [P]. *)
Definition channelsAll {num : Type} (P : num -> Prop)
    (p : PartialLUTParams.t num) : Prop :=
  forall key c, PartialLUTParams.getRGB key p = Some c ->
    P c.(RGB.r) /\ P c.(RGB.g) /\ P c.(RGB.b).

(** All the bins of the four histograms. *)
Definition bins {A : Type} (h : Histogram.t A) : list A :=
  Histogram.r h ++ Histogram.g h ++ Histogram.b h ++ Histogram.luminance h.

(** A buffer of two opaque pixels, (255, 0, 0) and (254, 0, 0). *)
Definition twoReds : list Histogram.Pixel :=
  [ Histogram.mkPixel Byte.xff Byte.x00 Byte.x00 Byte.xff;
    Histogram.mkPixel Byte.xfe Byte.x00 Byte.x00 Byte.xff ].

(** The 256 byte values, in increasing order. *)
Definition allBytes : list Byte.byte :=
  Eval vm_compute in
    flat_map (fun n => match Byte.of_N (N.of_nat n) with
                       | Some c => [c]
                       | None => []
                       end) (seq 0 256).

(** The channel values [data[i] / 255] of the 256 bytes. *)
Definition channels : list float :=
  map (fun c => (F64.ofByte c / 255)%float) allBytes.

(** For every pixel with channels in [l], the scaled luminance [lum * 255]
    that indexes the luminance histogram lies in [0, 256).  The products and
    the partial sum of [getLuminance] are computed once per channel value. *)
Definition lumInRange (l : list float) : bool :=
  forallb (fun fr =>
    let red := (0.299 * fr)%float in
    forallb (fun fg =>
      let redGreen := (red + 0.587 * fg)%float in
      forallb (fun fb =>
        let x := ((redGreen + 0.114 * fb) * 255)%float in
        ((0 <=? x)%float && (x <? 256)%float)%bool)
        l)
      l)
    l.

(** Invariant of the pixel loop after [n] pixels: four arrays of 256 bins,
    the red one holding one count per pixel. *)
Definition counted (n : nat) (h : Histogram.t nat) : Prop :=
  List.length (Histogram.r h) = 256%nat /\
  List.length (Histogram.g h) = 256%nat /\
  List.length (Histogram.b h) = 256%nat /\
  List.length (Histogram.luminance h) = 256%nat /\
  list_sum (Histogram.r h) = n.

(** A binary64 value that is NaN or lies in [0,1]. *)
Definition unitOrNaN (x : float) : bool :=
  (is_nan x || ((0 <=? x)%float && (x <=? 1)%float))%bool.

Definition unitOrNaN3 (c : float * float * float) : bool :=
  let '(r, g, b) := c in (unitOrNaN r && unitOrNaN g && unitOrNaN b)%bool.

(** A binary64 value that is NaN or lies in [-1,1]. *)
Definition signedOrNaN (x : float) : bool :=
  (is_nan x || ((-1 <=? x)%float && (x <=? 1)%float))%bool.

Definition signedOrNaNRGB (c : RGB float) : bool :=
  (signedOrNaN c.(RGB.r) && signedOrNaN c.(RGB.g)
   && signedOrNaN c.(RGB.b))%bool.

(** Every field of a binary64 parameter set is NaN or lies in [-1,1]. *)
Definition signedOrNaNParams (p : LUTParams float) : bool :=
  (signedOrNaN p.(LUTParams.contrast) && signedOrNaN p.(LUTParams.saturation)
   && signedOrNaN p.(LUTParams.temperature) && signedOrNaN p.(LUTParams.tint)
   && signedOrNaN p.(LUTParams.shadows) && signedOrNaN p.(LUTParams.highlights)
   && signedOrNaNRGB p.(LUTParams.lift) && signedOrNaNRGB p.(LUTParams.gamma)
   && signedOrNaNRGB p.(LUTParams.gain))%bool.

(** The four histograms hold [n] counts each, in 256 bins each. *)
Definition totals (n : nat) (h : Histogram.t nat) : Prop :=
  (List.length (Histogram.r h) = 256 /\ list_sum (Histogram.r h) = n)%nat /\
  (List.length (Histogram.g h) = 256 /\ list_sum (Histogram.g h) = n)%nat /\
  (List.length (Histogram.b h) = 256 /\ list_sum (Histogram.b h) = n)%nat /\
  (List.length (Histogram.luminance h) = 256
   /\ list_sum (Histogram.luminance h) = n)%nat.

End Spec.

(** * Properties *)

(** ** Real arithmetic: clamping, tests and powers *)

Ltac minmax :=
  unfold Ideal.clamp, Ideal.Math_max, Ideal.Math_min, Rmax, Rmin;
  repeat match goal with
         | |- context [Rle_dec ?a ?b] => destruct (Rle_dec a b)
         | H : context [Rle_dec ?a ?b] |- _ => destruct (Rle_dec a b)
         end;
  try lra.

Section IdealFacts.
Import Ideal.
Open Scope R_scope.

Lemma clamp_range (v : R) : 0 <= clamp v <= 1.
Proof. minmax. Qed.

Lemma clamp_id (v : R) : 0 <= v <= 1 -> clamp v = v.
Proof. intros H. minmax. Qed.

Lemma clamp_below (v : R) : v <= 0 -> clamp v = 0.
Proof. intros H. minmax. Qed.

Lemma clamp_above (v : R) : 1 <= v -> clamp v = 1.
Proof. intros H. minmax. Qed.

Lemma ltb_true (x y : R) : x < y -> (x <? y) = true.
Proof. intros H. unfold ltb. destruct (Rlt_dec x y); [reflexivity | lra]. Qed.

Lemma ltb_false (x y : R) : y <= x -> (x <? y) = false.
Proof. intros H. unfold ltb. destruct (Rlt_dec x y); [lra | reflexivity]. Qed.

Lemma eqb_refl (x : R) : (x =? x) = true.
Proof. unfold eqb. destruct (Req_dec_T x x); [reflexivity | contradiction]. Qed.

Lemma eqb_false (x y : R) : x <> y -> (x =? y) = false.
Proof.
  intros H. unfold eqb. destruct (Req_dec_T x y); [contradiction | reflexivity].
Qed.

(** [Math.pow(x, 1)] is [x] for every [x >= 0]. *)
Lemma Math_pow_one (x : R) : 0 <= x -> Math_pow x 1 = x.
Proof.
  intros Hx. unfold Math_pow.
  rewrite eqb_false by lra.
  destruct (Rlt_dec 0 x) as [Hpos | Hnot].
  - rewrite ltb_true by exact Hpos. apply Rpower_1. exact Hpos.
  - rewrite ltb_false by lra. lra.
Qed.

Lemma Rpower_base_one (y : R) : Rpower 1 y = 1.
Proof. unfold Rpower. rewrite ln_1, Rmult_0_r. apply exp_0. Qed.

(** A power of a base in [0,1] with a positive exponent stays in [0,1]. *)
Lemma Math_pow_unit (x y : R) : 0 <= x <= 1 -> 0 < y -> 0 <= Math_pow x y <= 1.
Proof.
  intros Hx Hy. unfold Math_pow.
  rewrite eqb_false by lra.
  destruct (Rlt_dec 0 x) as [Hpos | Hnot].
  - rewrite ltb_true by exact Hpos. split.
    + left. unfold Rpower. apply exp_pos.
    + rewrite <- (Rpower_base_one y).
      apply Rle_Rpower_l; lra.
  - rewrite ltb_false by lra. lra.
Qed.

(** Raising to [y] and then to [z] is raising to [y * z]. *)
Lemma Math_pow_pow (x y z : R) :
  0 <= x -> 0 < y -> 0 < z -> Math_pow (Math_pow x y) z = Math_pow x (y * z).
Proof.
  intros Hx Hy Hz. unfold Math_pow.
  assert (Hyz : 0 < y * z) by (apply Rmult_lt_0_compat; assumption).
  rewrite !eqb_false by lra.
  destruct (Rlt_dec 0 x) as [Hpos | Hnot].
  - rewrite (ltb_true 0 x) by exact Hpos.
    rewrite ltb_true by (unfold Rpower; apply exp_pos).
    apply Rpower_mult.
  - rewrite (ltb_false 0 x) by lra.
    rewrite ltb_false by lra. reflexivity.
Qed.

End IdealFacts.

(** ** The neutral parameter set *)

Section Neutral.
Import Ideal.
Open Scope R_scope.

Lemma lggChannel_neutral (v : R) : 0 <= v <= 1 -> lggChannel v 0 0 0 = v.
Proof.
  intros Hv. unfold lggChannel, liftScale, gammaScale, gainScale.
  replace (v + 0 * 0.1 * (1 - v)) with v by lra.
  replace (1 / (1 + 0 * 0.2)) with 1 by (field; lra).
  replace (Math_max 0 v) with v by minmax.
  rewrite Math_pow_one by lra.
  replace (v * (1 + 0 * 0.2)) with v by lra.
  apply clamp_id. exact Hv.
Qed.

Lemma shChannel_neutral (v : R) : shChannel 0 0 v = v.
Proof.
  unfold shChannel. rewrite eqb_refl. simpl negb.
  rewrite !andb_false_r. reflexivity.
Qed.

Lemma applyContrast_neutral (v : R) : 0 <= v <= 1 -> applyContrast v 0 = v.
Proof.
  intros Hv. unfold applyContrast.
  replace ((1 + 0) / (1 - 0 * 0.99)) with 1 by (field; lra).
  replace ((v - 0.5) * 1 + 0.5) with v by lra.
  apply clamp_id. exact Hv.
Qed.

Lemma applyTemperature_neutral (r g b : R) :
  0 <= r <= 1 -> 0 <= g <= 1 -> 0 <= b <= 1 ->
  applyTemperature r g b 0 0 = (r, g, b).
Proof.
  intros Hr Hg Hb. unfold applyTemperature.
  replace (r + 0 * 0.1) with r by lra.
  replace (g - 0 * 0.05) with g by lra.
  replace (b - 0 * 0.1) with b by lra.
  rewrite !clamp_id by assumption. reflexivity.
Qed.

Lemma applySaturation_neutral (r g b : R) :
  0 <= r <= 1 -> 0 <= g <= 1 -> 0 <= b <= 1 ->
  applySaturation r g b 0 = (r, g, b).
Proof.
  intros Hr Hg Hb. unfold applySaturation.
  set (l := 0.299 * r + 0.587 * g + 0.114 * b).
  replace (l + (r - l) * (1 + 0)) with r by lra.
  replace (l + (g - l) * (1 + 0)) with g by lra.
  replace (l + (b - l) * (1 + 0)) with b by lra.
  rewrite !clamp_id by assumption. reflexivity.
Qed.

(** In real arithmetic the neutral parameter set is the identity on the
    unit cube. *)
Lemma transformColor_neutral_ideal (r g b : R) :
  0 <= r <= 1 -> 0 <= g <= 1 -> 0 <= b <= 1 ->
  transformColor r g b defaultParams = (r, g, b).
Proof.
  intros Hr Hg Hb.
  unfold transformColor, defaultParams, applyLiftGammaGain,
    applyShadowsHighlights.
  cbn [LUTParams.lift LUTParams.gamma LUTParams.gain LUTParams.shadows
       LUTParams.highlights LUTParams.temperature LUTParams.tint
       LUTParams.contrast LUTParams.saturation RGB.r RGB.g RGB.b].
  rewrite !lggChannel_neutral by assumption.
  rewrite !shChannel_neutral.
  rewrite applyTemperature_neutral by assumption.
  rewrite !applyContrast_neutral by assumption.
  apply applySaturation_neutral; assumption.
Qed.

End Neutral.

Lemma forallb3_spec {B : Type} (l : list B) (P : B -> B -> B -> bool) :
  Spec.forallb3 l P = true ->
  forall x y z, In x l -> In y l -> In z l -> P x y z = true.
Proof.
  unfold Spec.forallb3. intros H x y z Hx Hy Hz.
  rewrite forallb_forall in H. specialize (H x Hx). cbv beta in H.
  rewrite forallb_forall in H. specialize (H y Hy). cbv beta in H.
  rewrite forallb_forall in H. exact (H z Hz).
Qed.

Lemma In_grid (size i : nat) :
  (i < size)%nat -> In (F64.gridInput size i) (Spec.grid size).
Proof.
  intros Hi. unfold Spec.grid. apply in_map. apply in_seq. lia.
Qed.

Lemma same3_eq (x y : float * float * float) : Spec.same3 x y = true -> x = y.
Proof.
  destruct x as [[x1 x2] x3], y as [[y1 y2] y3]. unfold Spec.same3.
  intros H. apply andb_prop in H. destruct H as [H H3].
  apply andb_prop in H. destruct H as [H1 H2].
  apply FloatAxioms.Leibniz.eqb_spec in H1, H2, H3. congruence.
Qed.

Lemma neutralOnGrid_spec (approx : float -> float -> float) (size : nat) :
  Spec.neutralOnGrid approx size = true ->
  forall i j k, (i < size)%nat -> (j < size)%nat -> (k < size)%nat ->
  F64.transformColor approx (F64.gridInput size i) (F64.gridInput size j)
    (F64.gridInput size k) F64.defaultParams
  = (F64.gridInput size i, F64.gridInput size j, F64.gridInput size k).
Proof.
  intros H i j k Hi Hj Hk. apply same3_eq.
  exact (forallb3_spec _ _ H _ _ _
           (In_grid size k Hk) (In_grid size j Hj) (In_grid size i Hi)).
Qed.

Lemma gridNumbers_spec (size : nat) :
  Spec.gridNumbers size = true ->
  forall i, (i < size)%nat ->
  PrimFloat.eqb (F64.gridInput size i) (F64.gridInput size i) = true.
Proof.
  unfold Spec.gridNumbers. intros H i Hi.
  rewrite forallb_forall in H. apply H. apply In_grid. exact Hi.
Qed.

(** Checked on the 33^3 samples of the default grid; the neutral gamma
    makes every exponent 1, so the engine's approximation is never used. *)
Lemma neutralOnGrid_33 (approx : float -> float -> float) :
  Spec.neutralOnGrid approx 33 = true.
Proof. vm_compute. reflexivity. Qed.

Lemma gridNumbers_33 : Spec.gridNumbers 33 = true.
Proof. vm_compute. reflexivity. Qed.

(** C1 (as amended): with the neutral parameter set, [transformColor] is the
    identity on the unit cube in real arithmetic, and in binary64 it returns
    its input bit for bit at every sample [i/32] of the default 33-point
    grid, whatever the engine's approximation of [Math.pow]. *)
Theorem transformColor_neutral (approx : float -> float -> float)
    (r g b : R) (i j k : nat) :
  Spec.inUnit r -> Spec.inUnit g -> Spec.inUnit b ->
  (i < 33)%nat -> (j < 33)%nat -> (k < 33)%nat ->
  Ideal.transformColor r g b Ideal.defaultParams = (r, g, b) /\
  Spec.eqb3
    (F64.transformColor approx (F64.gridInput 33 i) (F64.gridInput 33 j)
       (F64.gridInput 33 k) F64.defaultParams)
    (F64.gridInput 33 i, F64.gridInput 33 j, F64.gridInput 33 k) = true.
Proof.
  intros Hr Hg Hb Hi Hj Hk. split.
  - apply transformColor_neutral_ideal; assumption.
  - rewrite (neutralOnGrid_spec approx 33 (neutralOnGrid_33 approx))
      by assumption.
    unfold Spec.eqb3.
    rewrite !(gridNumbers_spec 33 gridNumbers_33) by assumption.
    reflexivity.
Qed.

Lemma transformColor_neutral_witness :
  Ideal.transformColor (/ 2)%R (/ 4)%R 1%R Ideal.defaultParams
  = (/ 2, / 4, 1)%R /\
  Spec.eqb3
    (F64.transformColor Spec.sampleEngine (F64.gridInput 33 1)
       (F64.gridInput 33 2) (F64.gridInput 33 32) F64.defaultParams)
    (F64.gridInput 33 1, F64.gridInput 33 2, F64.gridInput 33 32) = true.
Proof.
  apply (transformColor_neutral Spec.sampleEngine (/ 2)%R (/ 4)%R 1%R 1 2 32);
    unfold Spec.inUnit; try lra; lia.
Defined.

(** The transform of (0.1, 0.1, 0.1) with the neutral parameters is the same
    for every engine. *)
Lemma transformColor_tenth_any_engine (approx : float -> float -> float) :
  (F64.transformColor approx 0.1 0.1 0.1 F64.defaultParams
   = F64.transformColor Spec.sampleEngine 0.1 0.1 0.1 F64.defaultParams)%float.
Proof. vm_compute. reflexivity. Qed.

(** C1 (as stated) fails in binary64: the input 0.1 comes back as
    0.09999999999999998, because [(0.1 - 0.5) * 1 + 0.5] rounds. *)
Lemma transformColor_neutral_inexact :
  (F64.transformColor Spec.sampleEngine 0.1 0.1 0.1 F64.defaultParams
   <> (0.1, 0.1, 0.1))%float.
Proof.
  intros H.
  apply (f_equal (fun c => Spec.eqb3 c (0.1, 0.1, 0.1)%float)) in H.
  vm_compute in H. discriminate H.
Qed.

(** ** The real-number reading is defined for valid parameters *)

Section CheckedFacts.
Open Scope R_scope.

Ltac checked_unfold :=
  unfold Checked.clamp, Checked.Math_max, Checked.Math_min, Checked.add,
    Checked.sub, Checked.mul, Checked.map2 in *.

(** A quotient has a value exactly when the divisor is not zero. *)
Lemma Checked_div (a b : R) :
  b <> 0 ->
  Checked.div (Checked.real a) (Checked.real b) = Checked.real (a / b).
Proof.
  intros Hb. unfold Checked.div.
  rewrite eqb_false by exact Hb. reflexivity.
Qed.


Lemma Checked_applyContrast (v c : R) :
  1 - c * 0.99 <> 0 ->
  Checked.applyContrast (Checked.real v) (Checked.real c)
  = Checked.real (Ideal.applyContrast v c).
Proof.
  intros Hc. unfold Checked.applyContrast, Ideal.applyContrast.
  cbv zeta. checked_unfold. rewrite (Checked_div (1 + c) (1 - c * 0.99) Hc).
  reflexivity.
Qed.


Lemma Checked_Math_pow (b e : R) :
  0 <= b -> 0 < e ->
  Checked.Math_pow (Checked.real b) (Checked.real e)
  = Checked.real (Ideal.Math_pow b e).
Proof.
  intros Hb He. unfold Checked.Math_pow, Ideal.Math_pow.
  rewrite (eqb_false e 0) by lra.
  destruct (Rlt_dec 0 b) as [Hpos | Hzero].
  - rewrite (ltb_true 0 b) by exact Hpos. reflexivity.
  - rewrite (ltb_false 0 b) by lra.
    replace b with 0 by lra. rewrite eqb_refl, (ltb_true 0 e) by exact He.
    reflexivity.
Qed.

Lemma Math_pow_nonneg (b e : R) : 0 <= Ideal.Math_pow b e.
Proof.
  unfold Ideal.Math_pow.
  destruct (Ideal.eqb e 0); [lra |].
  destruct (Ideal.ltb 0 b); [| lra].
  unfold Rpower. left. apply exp_pos.
Qed.

Lemma Checked_lggChannel (v l g k : R) :
  -1 <= g <= 1 ->
  Checked.lggChannel (Checked.real v) (Checked.real l) (Checked.real g)
    (Checked.real k)
  = Checked.real (Ideal.lggChannel v l g k).
Proof.
  intros Hg. unfold Checked.lggChannel, Ideal.lggChannel,
    Checked.liftScale, Checked.gammaScale, Checked.gainScale,
    Ideal.liftScale, Ideal.gammaScale, Ideal.gainScale.
  cbv zeta. checked_unfold.
  rewrite (Checked_div 1 (1 + g * 0.2)) by lra.
  rewrite Checked_Math_pow.
  - reflexivity.
  - unfold Ideal.Math_max. apply Rmax_l.
  - unfold Rdiv. rewrite Rmult_1_l. apply Rinv_0_lt_compat. lra.
Qed.

Lemma Checked_shChannel (s h v : R) :
  Checked.shChannel (Checked.real s) (Checked.real h) (Checked.real v)
  = Checked.real (Ideal.shChannel s h v).
Proof.
  unfold Checked.shChannel, Ideal.shChannel. cbv zeta.
  unfold Checked.ltb, Checked.eqb. checked_unfold.
  unfold Ideal.clamp, Ideal.Math_max, Ideal.Math_min.
  rewrite (Checked_div v 0.5) by lra.
  destruct ((Ideal.ltb v 0.5) && negb (Ideal.eqb s 0))%bool;
    match goal with
    | |- context [Checked.div (Some ?a) (Some 0.5)] =>
        rewrite (Checked_div a 0.5) by lra
    end;
    match goal with
    | |- context [if ?c then _ else _] => destruct c
    end; reflexivity.
Qed.

Lemma Checked_applyTemperature (r g b temp tint : R) :
  Checked.applyTemperature (Checked.real r) (Checked.real g)
    (Checked.real b) (Checked.real temp) (Checked.real tint)
  = Checked.of3 (Ideal.applyTemperature r g b temp tint).
Proof. reflexivity. Qed.

Lemma Checked_applySaturation (r g b s : R) :
  Checked.applySaturation (Checked.real r) (Checked.real g)
    (Checked.real b) (Checked.real s)
  = Checked.of3 (Ideal.applySaturation r g b s).
Proof. reflexivity. Qed.

(** For parameters in [-1,1] every operation of [transformColor] has a real
    value, and the result is the one of the total reading. *)
Lemma Checked_transformColor (r g b : R) (p : LUTParams R) :
  Spec.validParams p ->
  Checked.transformColor (Checked.real r) (Checked.real g) (Checked.real b)
    (Checked.ofParams p)
  = Checked.of3 (Ideal.transformColor r g b p).
Proof.
  intros (Hc & _ & _ & _ & _ & _ & _ & (G1 & G2 & G3) & _).
  unfold Spec.inSigned in *.
  unfold Checked.transformColor, Ideal.transformColor,
    Checked.applyLiftGammaGain, Ideal.applyLiftGammaGain,
    Checked.applyShadowsHighlights, Ideal.applyShadowsHighlights.
  destruct p as [c s te ti sh hi [lr lg lb] [gr gg gb] [kr kg kb]].
  cbn [Checked.ofParams Checked.ofRGB LUTParams.contrast LUTParams.saturation
    LUTParams.temperature LUTParams.tint LUTParams.shadows
    LUTParams.highlights LUTParams.lift LUTParams.gamma LUTParams.gain
    RGB.r RGB.g RGB.b] in *.
  rewrite !Checked_lggChannel by assumption.
  rewrite !Checked_shChannel.
  rewrite Checked_applyTemperature.
  destruct (Ideal.applyTemperature _ _ _ te ti) as [[r3 g3] b3].
  cbn [Checked.of3]. cbv zeta.
  rewrite !Checked_applyContrast by lra.
  apply Checked_applySaturation.
Qed.

Lemma Checked_limitedToFull (v : R) :
  Checked.limitedToFull (Checked.real v)
  = Checked.real (Ideal.limitedToFull v).
Proof.
  unfold Checked.limitedToFull, Ideal.limitedToFull. checked_unfold.
  rewrite Checked_div by lra. reflexivity.
Qed.

Lemma Checked_fullToLimited (v : R) :
  Checked.fullToLimited (Checked.real v)
  = Checked.real (Ideal.fullToLimited v).
Proof. reflexivity. Qed.

Lemma Checked_applyHEVCGammaCompensation (v : R) :
  Checked.applyHEVCGammaCompensation (Checked.real v)
  = Checked.real (Ideal.applyHEVCGammaCompensation v).
Proof.
  unfold Checked.applyHEVCGammaCompensation, Ideal.applyHEVCGammaCompensation,
    Checked.hevcGamma, Checked.standardGamma, Ideal.hevcGamma,
    Ideal.standardGamma.
  cbv zeta. checked_unfold.
  rewrite (Checked_Math_pow (Rmax 0 v) 1.96);
    [| apply Rmax_l | lra].
  rewrite (Checked_div 1 2.2) by lra.
  rewrite Checked_Math_pow; [reflexivity | apply Math_pow_nonneg |].
  unfold Rdiv. rewrite Rmult_1_l. apply Rinv_0_lt_compat. lra.
Qed.

Lemma Checked_applyInverseHEVCGammaCompensation (v : R) :
  Checked.applyInverseHEVCGammaCompensation (Checked.real v)
  = Checked.real (Ideal.applyInverseHEVCGammaCompensation v).
Proof.
  unfold Checked.applyInverseHEVCGammaCompensation,
    Ideal.applyInverseHEVCGammaCompensation,
    Checked.hevcGamma, Checked.standardGamma, Ideal.hevcGamma,
    Ideal.standardGamma.
  cbv zeta. checked_unfold.
  rewrite (Checked_Math_pow (Rmax 0 v) 2.2);
    [| apply Rmax_l | lra].
  rewrite (Checked_div 1 1.96) by lra.
  rewrite Checked_Math_pow; [reflexivity | apply Math_pow_nonneg |].
  unfold Rdiv. rewrite Rmult_1_l. apply Rinv_0_lt_compat. lra.
Qed.

Lemma Checked_transformColorHEVC (r g b : R) (p : LUTParams R) :
  Spec.validParams p ->
  Checked.transformColorHEVC (Checked.real r) (Checked.real g)
    (Checked.real b) (Checked.ofParams p)
  = Checked.of3 (Ideal.transformColorHEVC r g b p).
Proof.
  intros Hp. unfold Checked.transformColorHEVC, Ideal.transformColorHEVC.
  cbv zeta.
  rewrite !Checked_limitedToFull, !Checked_applyHEVCGammaCompensation.
  rewrite (Checked_transformColor _ _ _ p Hp).
  destruct (Ideal.transformColor _ _ _ p) as [[rG gG] bG].
  cbn [Checked.of3].
  rewrite !Checked_applyInverseHEVCGammaCompensation, !Checked_fullToLimited.
  reflexivity.
Qed.



End CheckedFacts.

(** ** The clamps in binary64 *)

Section Binary64Order.
Open Scope float_scope.

Lemma SFcompare_antisym (x y : spec_float) (c : comparison) :
  SFcompare x y = Some c -> SFcompare y x = Some (CompOpp c).
Proof.
  destruct x as [sx | sx | | sx mx ex], y as [sy | sy | | sy my ey];
    simpl; try discriminate;
    try (destruct sx); try (destruct sy); intros H;
    injection H as <-; try reflexivity;
    rewrite (Z.compare_antisym ex ey);
    destruct (ex ?= ey)%Z; simpl; try reflexivity;
    rewrite (Pos.compare_cont_antisym mx my Eq); reflexivity.
Qed.

Lemma SFcompare_total (x y : spec_float) :
  x <> S754_nan -> y <> S754_nan -> exists c, SFcompare x y = Some c.
Proof.
  intros Hx Hy.
  destruct x as [sx | sx | | sx mx ex], y as [sy | sy | | sy my ey];
    simpl; try congruence; eexists; reflexivity.
Qed.

Lemma is_nan_false (x : float) : is_nan x = false -> Prim2SF x <> S754_nan.
Proof.
  unfold is_nan. rewrite FloatAxioms.eqb_spec. intros H E. rewrite E in H.
  discriminate H.
Qed.

Lemma ltb_leb (x y : float) : (x <? y) = true -> (x <=? y) = true.
Proof.
  rewrite FloatAxioms.ltb_spec, FloatAxioms.leb_spec. unfold SFltb, SFleb.
  destruct (SFcompare (Prim2SF x) (Prim2SF y)) as [[| |] |];
    congruence.
Qed.

Lemma not_ltb_leb (x y : float) :
  is_nan x = false -> is_nan y = false ->
  (x <? y) = false -> (y <=? x) = true.
Proof.
  intros Hx Hy. rewrite FloatAxioms.ltb_spec, FloatAxioms.leb_spec. unfold SFltb, SFleb.
  destruct (SFcompare_total _ _ (is_nan_false x Hx) (is_nan_false y Hy))
    as (c & Hc).
  rewrite Hc, (SFcompare_antisym _ _ _ Hc).
  destruct c; simpl; congruence.
Qed.

Lemma leb_refl (x : float) : is_nan x = false -> (x <=? x) = true.
Proof.
  intros Hx. apply not_ltb_leb; try exact Hx.
  rewrite FloatAxioms.ltb_spec. unfold SFltb.
  destruct (SFcompare_total _ _ (is_nan_false x Hx) (is_nan_false x Hx))
    as (c & Hc).
  pose proof (SFcompare_antisym _ _ _ Hc) as Hc'. rewrite Hc in *.
  destruct c; simpl in Hc'; congruence.
Qed.

(** [Math.min(hi, x)] is NaN, or a number that is at most [hi]. *)
Lemma Math_min_upper (hi x : float) :
  is_nan hi = false ->
  F64.Math_min hi x = nan \/
  (is_nan (F64.Math_min hi x) = false /\ (F64.Math_min hi x <=? hi) = true).
Proof.
  intros Hhi. unfold F64.Math_min. rewrite Hhi. simpl orb.
  destruct (is_nan x) eqn:Hx; [left; reflexivity | right].
  destruct (hi <? x) eqn:H1; [split; [exact Hhi | apply leb_refl, Hhi] |].
  destruct (x <? hi) eqn:H2; [split; [exact Hx | apply ltb_leb, H2] |].
  destruct (get_sign hi); [split; [exact Hhi | apply leb_refl, Hhi] |].
  split; [exact Hx | apply not_ltb_leb; assumption].
Qed.

(** [Math.max(lo, Math.min(hi, x))] is NaN or lies between [lo] and [hi]. *)
Lemma clamp_between (lo hi x : float) :
  is_nan lo = false -> is_nan hi = false -> (lo <=? hi) = true ->
  (is_nan (F64.Math_max lo (F64.Math_min hi x))
   || ((lo <=? F64.Math_max lo (F64.Math_min hi x))
       && (F64.Math_max lo (F64.Math_min hi x) <=? hi)))%bool = true.
Proof.
  intros Hlo Hhi Hle.
  destruct (Math_min_upper hi x Hhi) as [-> | [Hm Hmle]].
  - unfold F64.Math_max. rewrite Hlo. reflexivity.
  - set (m := F64.Math_min hi x) in *.
    unfold F64.Math_max. rewrite Hlo, Hm. simpl orb. cbv iota.
    assert (Low : (is_nan lo || ((lo <=? lo) && (lo <=? hi)))%bool = true).
    { rewrite Hlo, (leb_refl lo Hlo), Hle. reflexivity. }
    destruct (lo <? m) eqn:H1.
    { rewrite Hm, (ltb_leb _ _ H1), Hmle. reflexivity. }
    destruct (m <? lo) eqn:H2; [exact Low |].
    destruct (get_sign lo); [| exact Low].
    rewrite Hm, (not_ltb_leb m lo Hm Hlo H2), Hmle. reflexivity.
Qed.

Lemma clamp_unitOrNaN (x : float) : Spec.unitOrNaN (F64.clamp x) = true.
Proof.
  unfold Spec.unitOrNaN, F64.clamp. apply clamp_between; reflexivity.
Qed.

Lemma clampSigned_signedOrNaN (x : float) :
  Spec.signedOrNaN (F64.clampSigned x) = true.
Proof.
  unfold Spec.signedOrNaN, F64.clampSigned. apply clamp_between; reflexivity.
Qed.

End Binary64Order.




(** ** Closure of the pipeline *)

Section Closure.
Import Ideal.
Open Scope R_scope.

Lemma applySaturation_unit (r g b s : R) :
  Spec.unitRGB (applySaturation r g b s).
Proof.
  unfold applySaturation, Spec.unitRGB, Spec.inUnit.
  repeat split; apply clamp_range.
Qed.

Lemma transformColor_unit (r g b : R) (p : LUTParams R) :
  Spec.unitRGB (transformColor r g b p).
Proof.
  unfold transformColor, applyLiftGammaGain, applyShadowsHighlights,
    applyTemperature.
  apply applySaturation_unit.
Qed.

End Closure.



(** ** Saturation *)

Section Saturation.
Import Ideal.
Open Scope R_scope.

Lemma applyContrast_unit (v c : R) : 0 <= applyContrast v c <= 1.
Proof. unfold applyContrast. apply clamp_range. Qed.

(** The pipeline is the saturation stage applied to the contrast-adjusted
    triple. *)
Lemma transformColor_stages (r g b : R) (p : LUTParams R) :
  transformColor r g b p =
  let '(r', g', b') := Spec.contrastAdjusted r g b p in
  applySaturation r' g' b' p.(LUTParams.saturation).
Proof. reflexivity. Qed.

(** Full desaturation replicates the luma of a triple of the unit cube. *)
Lemma applySaturation_gray (r g b : R) :
  0 <= r <= 1 -> 0 <= g <= 1 -> 0 <= b <= 1 ->
  applySaturation r g b (-1) =
  (Spec.luma (r, g, b), Spec.luma (r, g, b), Spec.luma (r, g, b)).
Proof.
  intros Hr Hg Hb. unfold applySaturation, Spec.luma.
  set (l := 0.299 * r + 0.587 * g + 0.114 * b).
  assert (Hl : 0 <= l <= 1) by (unfold l; lra).
  replace (l + (r - l) * (1 + -1)) with l by lra.
  replace (l + (g - l) * (1 + -1)) with l by lra.
  replace (l + (b - l) * (1 + -1)) with l by lra.
  rewrite clamp_id by exact Hl. reflexivity.
Qed.

End Saturation.

(** C7: with saturation -1 and everything else neutral, the input (1, 0, 0)
    gives the gray (0.299, 0.299, 0.299), in binary64 bit for bit and in real
    arithmetic; and for any parameter set with saturation -1 all three
    output channels are the luma [0.299R + 0.587G + 0.114B] of the
    contrast-adjusted triple.  The binary64 result does not depend on the
    engine's approximation of [Math.pow]. *)
Theorem saturation_minus_one_gray (approx : float -> float -> float)
    (r g b : R) (p : LUTParams R) :
  p.(LUTParams.saturation) = (-1)%R ->
  (F64.transformColor approx 1 0 0
     (mkLUTParams 0 (-1) 0 0 0 0 (mkRGB 0 0 0) (mkRGB 0 0 0) (mkRGB 0 0 0))
   = (0.299, 0.299, 0.299))%float /\
  (Ideal.transformColor 1 0 0
     (mkLUTParams 0 (-1) 0 0 0 0 (mkRGB 0 0 0) (mkRGB 0 0 0) (mkRGB 0 0 0))
   = (0.299, 0.299, 0.299))%R /\
  Ideal.transformColor r g b p =
  (Spec.luma (Spec.contrastAdjusted r g b p),
   Spec.luma (Spec.contrastAdjusted r g b p),
   Spec.luma (Spec.contrastAdjusted r g b p)).
Proof.
  intros Hsat.
  assert (General : forall r g b p, p.(LUTParams.saturation) = (-1)%R ->
    Ideal.transformColor r g b p =
    (Spec.luma (Spec.contrastAdjusted r g b p),
     Spec.luma (Spec.contrastAdjusted r g b p),
     Spec.luma (Spec.contrastAdjusted r g b p))).
  { clear. intros r g b p Hsat.
    rewrite transformColor_stages. rewrite Hsat.
    unfold Spec.contrastAdjusted, Ideal.applyLiftGammaGain,
      Ideal.applyShadowsHighlights, Ideal.applyTemperature.
    apply applySaturation_gray; apply applyContrast_unit. }
  split; [vm_compute; reflexivity |]. split; [| apply General; exact Hsat].
  rewrite General by reflexivity.
  assert (Hadj : Spec.contrastAdjusted 1 0 0
    (mkLUTParams 0 (-1) 0 0 0 0 (mkRGB 0 0 0) (mkRGB 0 0 0) (mkRGB 0 0 0))%R
    = (1, 0, 0)%R).
  { unfold Spec.contrastAdjusted, Ideal.applyLiftGammaGain,
      Ideal.applyShadowsHighlights.
    cbn [LUTParams.lift LUTParams.gamma LUTParams.gain LUTParams.shadows
         LUTParams.highlights LUTParams.temperature LUTParams.tint
         LUTParams.contrast LUTParams.saturation RGB.r RGB.g RGB.b].
    rewrite !lggChannel_neutral by lra.
    rewrite !shChannel_neutral.
    rewrite applyTemperature_neutral by lra.
    rewrite !applyContrast_neutral by lra. reflexivity. }
  rewrite Hadj. unfold Spec.luma.
  repeat f_equal; lra.
Qed.

Lemma saturation_minus_one_gray_witness :
  (F64.transformColor Spec.sampleEngine 1 0 0
     (mkLUTParams 0 (-1) 0 0 0 0 (mkRGB 0 0 0) (mkRGB 0 0 0) (mkRGB 0 0 0))
   = (0.299, 0.299, 0.299))%float /\
  (Ideal.transformColor 1 0 0
     (mkLUTParams 0 (-1) 0 0 0 0 (mkRGB 0 0 0) (mkRGB 0 0 0) (mkRGB 0 0 0))
   = (0.299, 0.299, 0.299))%R /\
  Ideal.transformColor (/ 2)%R 1%R 0%R
    (mkLUTParams (/ 2) (-1) 0 0 0 0 (mkRGB 0 0 0) (mkRGB 0 0 0)
       (mkRGB 0 0 0))%R =
  (Spec.luma (Spec.contrastAdjusted (/ 2) 1 0
     (mkLUTParams (/ 2) (-1) 0 0 0 0 (mkRGB 0 0 0) (mkRGB 0 0 0)
        (mkRGB 0 0 0)))%R,
   Spec.luma (Spec.contrastAdjusted (/ 2) 1 0
     (mkLUTParams (/ 2) (-1) 0 0 0 0 (mkRGB 0 0 0) (mkRGB 0 0 0)
        (mkRGB 0 0 0)))%R,
   Spec.luma (Spec.contrastAdjusted (/ 2) 1 0
     (mkLUTParams (/ 2) (-1) 0 0 0 0 (mkRGB 0 0 0) (mkRGB 0 0 0)
        (mkRGB 0 0 0)))%R).
Proof.
  apply (saturation_minus_one_gray Spec.sampleEngine (/ 2)%R 1%R 0%R
           (mkLUTParams (/ 2) (-1) 0 0 0 0 (mkRGB 0 0 0) (mkRGB 0 0 0)
              (mkRGB 0 0 0))%R).
  reflexivity.
Defined.

(** ** The HEVC wrapper *)

Section HEVC.
Import Ideal.
Open Scope R_scope.

Lemma Math_max_unit (u : R) : 0 <= u <= 1 -> Math_max 0 u = u.
Proof. intros Hu. minmax. Qed.

Lemma applyHEVCGammaCompensation_eq (u : R) :
  0 <= u <= 1 ->
  applyHEVCGammaCompensation u = Math_pow u (hevcGamma * (1 / standardGamma)).
Proof.
  intros Hu. unfold applyHEVCGammaCompensation.
  rewrite Math_max_unit by exact Hu.
  apply Math_pow_pow; unfold hevcGamma, standardGamma; lra.
Qed.

Lemma applyHEVCGammaCompensation_unit (u : R) :
  0 <= u <= 1 -> 0 <= applyHEVCGammaCompensation u <= 1.
Proof.
  intros Hu. rewrite applyHEVCGammaCompensation_eq by exact Hu.
  apply Math_pow_unit; [exact Hu | unfold hevcGamma, standardGamma; lra].
Qed.

(** The inverse gamma remap undoes the gamma remap on [0,1]. *)
Lemma applyInverseHEVCGammaCompensation_inverse (u : R) :
  0 <= u <= 1 ->
  applyInverseHEVCGammaCompensation (applyHEVCGammaCompensation u) = u.
Proof.
  intros Hu.
  pose proof (applyHEVCGammaCompensation_unit u Hu) as Hw.
  unfold applyInverseHEVCGammaCompensation.
  rewrite Math_max_unit by exact Hw.
  rewrite applyHEVCGammaCompensation_eq by exact Hu.
  assert (Ha : 0 < hevcGamma * (1 / standardGamma))
    by (unfold hevcGamma, standardGamma; lra).
  assert (Hs : 0 < standardGamma) by (unfold standardGamma; lra).
  assert (Hc : 0 < 1 / hevcGamma) by (unfold hevcGamma; lra).
  rewrite (Math_pow_pow u _ standardGamma) by (assumption || lra).
  rewrite (Math_pow_pow u _ (1 / hevcGamma)).
  - replace (hevcGamma * (1 / standardGamma) * standardGamma * (1 / hevcGamma))
      with 1 by (unfold hevcGamma, standardGamma; field; lra).
    apply Math_pow_one. lra.
  - lra.
  - apply Rmult_lt_0_compat; assumption.
  - exact Hc.
Qed.

(** Range expansion followed by range compression projects onto the legal
    range. *)
Lemma fullToLimited_limitedToFull (v : R) :
  fullToLimited (limitedToFull v) = Spec.legal v.
Proof.
  unfold fullToLimited, limitedToFull, Spec.legal.
  destruct (Rle_dec v 0.0627) as [Hlow | Hlow].
  - rewrite (clamp_below ((v - 0.0627) / (0.9216 - 0.0627))).
    + rewrite clamp_id by lra. unfold Rmax, Rmin.
      repeat destruct Rle_dec; lra.
    + apply Rmult_le_reg_r with (0.9216 - 0.0627); [lra |].
      unfold Rdiv. rewrite Rmult_assoc, Rinv_l by lra. lra.
  - destruct (Rle_dec 0.9216 v) as [Hhigh | Hhigh].
    + rewrite (clamp_above ((v - 0.0627) / (0.9216 - 0.0627))).
      * rewrite clamp_id by lra. unfold Rmax, Rmin.
        repeat destruct Rle_dec; lra.
      * apply Rmult_le_reg_r with (0.9216 - 0.0627); [lra |].
        unfold Rdiv. rewrite Rmult_assoc, Rinv_l by lra. lra.
    + assert (Hq : 0 <= (v - 0.0627) / (0.9216 - 0.0627) <= 1).
      { split; apply Rmult_le_reg_r with (0.9216 - 0.0627); try lra;
          unfold Rdiv; rewrite Rmult_assoc, Rinv_l by lra; lra. }
      rewrite (clamp_id _ Hq).
      replace ((v - 0.0627) / (0.9216 - 0.0627) * (0.9216 - 0.0627) + 0.0627)
        with v by (field; lra).
      rewrite clamp_id by lra. unfold Rmax, Rmin.
      repeat destruct Rle_dec; lra.
Qed.

Lemma limitedToFull_unit (v : R) : 0 <= limitedToFull v <= 1.
Proof. unfold limitedToFull. apply clamp_range. Qed.

End HEVC.

Lemma legal_fixed (v : R) : (0.0627 <= v <= 0.9216)%R -> Spec.legal v = v.
Proof.
  intros Hv. unfold Spec.legal, Rmax, Rmin. repeat destruct Rle_dec; lra.
Qed.

(** C6 (as amended): with the neutral parameter set and in real arithmetic,
    [transformColorHEVC] maps every channel [r], [g], [b] to the nearest
    value of the legal range [0.0627, 0.9216]; so it returns a sample
    [(x, y, z)] exactly when its channels lie in that range, and moves
    every channel outside of it to the nearest bound. *)
Theorem transformColorHEVC_neutral (r g b x y z : R) :
  (0.0627 <= x <= 0.9216)%R -> (0.0627 <= y <= 0.9216)%R ->
  (0.0627 <= z <= 0.9216)%R ->
  Ideal.transformColorHEVC r g b Ideal.defaultParams
  = (Spec.legal r, Spec.legal g, Spec.legal b) /\
  Ideal.transformColorHEVC x y z Ideal.defaultParams = (x, y, z).
Proof.
  assert (Main : forall r g b,
    Ideal.transformColorHEVC r g b Ideal.defaultParams
    = (Spec.legal r, Spec.legal g, Spec.legal b)).
  { clear. intros r g b. unfold Ideal.transformColorHEVC.
    rewrite transformColor_neutral_ideal
      by (apply applyHEVCGammaCompensation_unit; apply limitedToFull_unit).
    rewrite !applyInverseHEVCGammaCompensation_inverse
      by apply limitedToFull_unit.
    rewrite !fullToLimited_limitedToFull. reflexivity. }
  intros Hx Hy Hz. split; [apply Main |].
  rewrite Main, !legal_fixed by assumption. reflexivity.
Qed.

Lemma transformColorHEVC_neutral_witness :
  (Ideal.transformColorHEVC 0 1 (/ 2) Ideal.defaultParams
   = (Spec.legal 0, Spec.legal 1, Spec.legal (/ 2)))%R /\
  (Ideal.transformColorHEVC (/ 2) 0.0627 0.9216 Ideal.defaultParams
   = (/ 2, 0.0627, 0.9216))%R.
Proof.
  apply (transformColorHEVC_neutral 0 1 (/ 2) (/ 2) 0.0627 0.9216)%R; lra.
Defined.

(** The HEVC transform of black with the neutral parameters is the same for
    every engine: its powers have the base 0. *)
Lemma transformColorHEVC_black_any_engine
    (approx : float -> float -> float) :
  (F64.transformColorHEVC approx 0 0 0 F64.defaultParams
   = F64.transformColorHEVC Spec.sampleEngine 0 0 0 F64.defaultParams)%float.
Proof. vm_compute. reflexivity. Qed.

(** C6 (as stated) fails at black: the sample 0 comes back as 0.0627, the
    lower bound of the legal range, in binary64 as in real arithmetic. *)
Lemma transformColorHEVC_black_not_restored :
  (F64.transformColorHEVC Spec.sampleEngine 0 0 0 F64.defaultParams
   = (0.0627, 0.0627, 0.0627))%float /\
  (0.06 <? fst (fst (F64.transformColorHEVC Spec.sampleEngine 0 0 0
                       F64.defaultParams)) - 0)%float
  = true.
Proof. split; vm_compute; reflexivity. Qed.

(** ** The grid loops *)

Section Loops.
Context {A : Type}.

Lemma length_flat_map_const {B : Type} (f : B -> list A) (l : list B) (m : nat) :
  (forall x, List.length (f x) = m) ->
  List.length (flat_map f l) = (List.length l * m)%nat.
Proof.
  intros Hf. induction l as [| x l IH]; simpl.
  - reflexivity.
  - rewrite length_app, Hf, IH. reflexivity.
Qed.



Lemma length_cubeRow (n : nat) (body : nat -> nat -> nat -> A) (g b : nat) :
  List.length (map (fun r => body r g b) (seq 0 n)) = n.
Proof. rewrite length_map, length_seq. reflexivity. Qed.

Lemma length_cubePlane (n : nat) (body : nat -> nat -> nat -> A) (b : nat) :
  List.length
    (flat_map (fun g => map (fun r => body r g b) (seq 0 n)) (seq 0 n))
  = (n * n)%nat.
Proof.
  rewrite (length_flat_map_const _ _ n) by (intros g; apply length_cubeRow).
  rewrite length_seq. reflexivity.
Qed.

(** The loops run their body [size^3] times. *)
Lemma length_cubeLoop (n : nat) (body : nat -> nat -> nat -> A) :
  List.length (Cube.cubeLoop n body) = (n ^ 3)%nat.
Proof.
  unfold Cube.cubeLoop.
  rewrite (length_flat_map_const _ _ (n * n))
    by (intros b; apply length_cubePlane).
  rewrite length_seq. simpl. lia.
Qed.




End Loops.

(** ** Grid coordinates *)

Section Grid.
Open Scope R_scope.






End Grid.

Section Grid64.










End Grid64.



(** ** Printed numbers *)












(** ** Binary64 facts read off the specification of the primitives *)

Section Binary64.

Lemma digits2_pos_bound (m : positive) :
  (Zpos m < 2 ^ Zpos (digits2_pos m))%Z.
Proof.
  induction m as [m IH | m IH |]; simpl digits2_pos.
  - rewrite Pos2Z.inj_succ, Z.pow_succ_r by lia. lia.
  - rewrite Pos2Z.inj_succ, Z.pow_succ_r by lia. lia.
  - reflexivity.
Qed.

(** The mantissa of a valid binary64 number has at most 53 bits. *)
Lemma valid_mantissa_bound (s : bool) (m : positive) (e : Z) :
  valid_binary (S754_finite s m e) = true -> (Zpos m < 2 ^ 53)%Z.
Proof.
  unfold valid_binary, bounded, canonical_mantissa.
  intros H. apply andb_prop in H. destruct H as [H _].
  apply Z.eqb_eq in H.
  pose proof (digits2_pos_bound m) as Hd.
  assert (Hle : (Zpos (digits2_pos m) <= 53)%Z).
  { unfold fexp, SpecFloat.emin, prec, emax in H. lia. }
  eapply Z.lt_le_trans; [exact Hd |].
  apply Z.pow_le_mono_r; lia.
Qed.

(** A number of [0, 256) has its floor in [0, 256). *)
Lemma floorZ_bound (x : float) :
  (0 <=? x)%float = true -> (x <? 256)%float = true ->
  exists z, F64.floorZ x = Some z /\ (0 <= z < 256)%Z.
Proof.
  rewrite leb_spec, ltb_spec.
  replace (Prim2SF 0) with (S754_zero false) by (vm_compute; reflexivity).
  replace (Prim2SF 256) with (S754_finite false 4503599627370496 (-44))
    by (vm_compute; reflexivity).
  unfold F64.floorZ.
  pose proof (Prim2SF_valid x) as Hvalid.
  destruct (Prim2SF x) as [s | s | | s m e]; intros H0 H1.
  - exists 0%Z. split; [reflexivity | lia].
  - destruct s; discriminate.
  - discriminate.
  - destruct s; [discriminate |].
    pose proof (valid_mantissa_bound _ _ _ Hvalid) as Hm.
    unfold SFltb, SFcompare in H1.
    destruct (Z.compare_spec e (-44)) as [He | He | He]; try discriminate.
    + (* e = -44 and the mantissa is below 2^52 *)
      subst e.
      destruct (Pos.compare_cont Eq m 4503599627370496) eqn:Hcmp;
        try discriminate.
      assert (Hlt : (Zpos m < 4503599627370496)%Z) by exact Hcmp.
      exists (Z.shiftr (Zpos m) 44). split; [reflexivity |].
      rewrite Z.shiftr_div_pow2 by lia. split.
      * apply Z.div_pos; lia.
      * apply Z.div_lt_upper_bound; lia.
    + (* e < -44 *)
      exists (Z.shiftr (Zpos m) (- e)). split.
      * destruct (0 <=? e)%Z eqn:Hsign; [apply Z.leb_le in Hsign; lia |].
        reflexivity.
      * rewrite Z.shiftr_div_pow2 by lia. split.
        -- apply Z.div_pos; [lia | apply Z.pow_pos_nonneg; lia].
        -- apply Z.div_lt_upper_bound; [apply Z.pow_pos_nonneg; lia |].
           assert (Hpow : (2 ^ 45 <= 2 ^ (- e))%Z)
             by (apply Z.pow_le_mono_r; lia).
           lia.
Qed.





End Binary64.

(** ** The text of the cube file *)

Section CubeFormat.
Open Scope string_scope.








(** The two texts of the counterexample are the same for every engine. *)
Lemma generateCubeLUT_size_one_any_engine
    (approx : float -> float -> float) :
  F64.generateCubeLUT approx F64.defaultParams "Generated LUT" 1 standard
  = F64.generateCubeLUT Spec.sampleEngine F64.defaultParams "Generated LUT" 1
      standard /\
  F64.generateCubeLUT approx
    (mkLUTParams (100 / 99) 0 0 0 0 0 (mkRGB 0 0 0) (mkRGB 0 0 0)
       (mkRGB 0 0 0))%float "Generated LUT" 3 standard
  = F64.generateCubeLUT Spec.sampleEngine
      (mkLUTParams (100 / 99) 0 0 0 0 0 (mkRGB 0 0 0) (mkRGB 0 0 0)
         (mkRGB 0 0 0))%float "Generated LUT" 3 standard.
Proof. split; vm_compute; reflexivity. Qed.


End CubeFormat.

(** ** The free-text extractor *)

Section ParserInvariant.
Context {num : Type}.
Variable parseNumber : string -> option num.
Variable scalarValue : num -> num.
Variable channelValue : num -> num.
(** A property of every scalar the extractor stores. *)
Variable P : num -> Prop.
Hypothesis P_scalarValue :
  forall text value, parseNumber text = Some value -> P (scalarValue value).

Lemma scalarsAll_empty : Spec.scalarsAll P PartialLUTParams.empty.
Proof. intros key v H. destruct key; discriminate H. Qed.

Lemma scalarsAll_setScalar (key : ScalarKey.t) (v : num)
    (p : PartialLUTParams.t num) :
  P v -> Spec.scalarsAll P p ->
  Spec.scalarsAll P (PartialLUTParams.setScalar key v p).
Proof.
  intros Hv Hp key' v' H. destruct p.
  destruct key, key'; simpl in H;
    try (injection H as <-; exact Hv);
    first [ apply (Hp ScalarKey.contrast v' H)
          | apply (Hp ScalarKey.saturation v' H)
          | apply (Hp ScalarKey.temperature v' H)
          | apply (Hp ScalarKey.tint v' H)
          | apply (Hp ScalarKey.shadows v' H)
          | apply (Hp ScalarKey.highlights v' H) ].
Qed.

Lemma scalarsAll_setRGB (key : RGBKey.t) (c : RGB num)
    (p : PartialLUTParams.t num) :
  Spec.scalarsAll P p -> Spec.scalarsAll P (PartialLUTParams.setRGB key c p).
Proof.
  intros Hp key' v' H. destruct p.
  destruct key, key'; simpl in H;
    first [ apply (Hp ScalarKey.contrast v' H)
          | apply (Hp ScalarKey.saturation v' H)
          | apply (Hp ScalarKey.temperature v' H)
          | apply (Hp ScalarKey.tint v' H)
          | apply (Hp ScalarKey.shadows v' H)
          | apply (Hp ScalarKey.highlights v' H) ].
Qed.

Lemma scalarsAll_scalarStep (response : string) (p : PartialLUTParams.t num)
    (entry : ScalarKey.t * Text.regex) :
  Spec.scalarsAll P p ->
  Spec.scalarsAll P
    (Parser.scalarStep parseNumber scalarValue response p entry).
Proof.
  intros Hp. unfold Parser.scalarStep. destruct entry as [key pattern].
  destruct (Text.regexMatch pattern response) as [[| m1 ms] |]; try exact Hp.
  destruct (parseNumber m1) as [value |] eqn:Hparse; [| exact Hp].
  apply scalarsAll_setScalar; [| exact Hp].
  apply (P_scalarValue m1). exact Hparse.
Qed.

Lemma scalarsAll_rgbStep (response : string) (p : PartialLUTParams.t num)
    (entry : RGBKey.t * Text.regex) :
  Spec.scalarsAll P p ->
  Spec.scalarsAll P
    (Parser.rgbStep parseNumber channelValue response p entry).
Proof.
  intros Hp. unfold Parser.rgbStep. destruct entry as [key pattern].
  destruct (Text.regexMatch pattern response) as [[| m1 [| m2 [| m3 ms]]] |];
    try exact Hp.
  destruct (parseNumber m1), (parseNumber m2), (parseNumber m3);
    try exact Hp.
  apply scalarsAll_setRGB. exact Hp.
Qed.

Lemma scalarsAll_fold {E : Type}
    (step : PartialLUTParams.t num -> E -> PartialLUTParams.t num)
    (entries : list E) (p : PartialLUTParams.t num) :
  (forall q e, Spec.scalarsAll P q -> Spec.scalarsAll P (step q e)) ->
  Spec.scalarsAll P p -> Spec.scalarsAll P (fold_left step entries p).
Proof.
  intros Hstep. revert p. induction entries as [| e es IH]; intros p Hp.
  - exact Hp.
  - simpl. apply IH. apply Hstep. exact Hp.
Qed.

(** Whatever the text, every scalar field of the result is a
    [scalarValue] of a parsed number. *)
Lemma scalarsAll_parseAIResponse (response : string) :
  Spec.scalarsAll P
    (Parser.parseAIResponse parseNumber scalarValue channelValue response).
Proof.
  unfold Parser.parseAIResponse.
  apply scalarsAll_fold; [intros q e; apply scalarsAll_rgbStep |].
  apply scalarsAll_fold; [intros q e; apply scalarsAll_scalarStep |].
  apply scalarsAll_empty.
Qed.

End ParserInvariant.

Section ScalarValue.
Import Ideal.
Open Scope R_scope.

(** A negative number is clamped to 0 before its sign is put back. *)
Lemma scalarValue_negative (value : R) : value < 0 -> scalarValue value = 0.
Proof.
  intros Hneg. unfold scalarValue.
  rewrite (ltb_true value 0) by exact Hneg.
  rewrite clamp_below; [lra |].
  destruct (1 <? Rabs value).
  - apply Rmult_le_reg_r with 100; [lra |].
    unfold Rdiv. rewrite Rmult_assoc, Rinv_l by lra. lra.
  - lra.
Qed.

Lemma scalarValue_range (value : R) : 0 <= scalarValue value <= 1.
Proof.
  destruct (Rlt_dec value 0) as [Hneg | Hpos].
  - rewrite scalarValue_negative by exact Hneg. lra.
  - unfold scalarValue. rewrite (ltb_false value 0) by lra.
    pose proof (clamp_range (value / (if 1 <? Rabs value then 100 else 1))).
    lra.
Qed.

Lemma channelValue_range (c : R) : -1 <= channelValue c <= 1.
Proof.
  unfold channelValue, Math_max, Math_min, Rmax, Rmin.
  repeat destruct Rle_dec; lra.
Qed.

(** A channel of [-1,1] is stored unchanged. *)
Lemma channelValue_id (c : R) : -1 <= c <= 1 -> channelValue c = c.
Proof.
  intros Hc. unfold channelValue.
  rewrite ltb_false by (unfold Rabs; destruct Rcase_abs; lra).
  replace (c / 1) with c by lra.
  unfold Math_max, Math_min, Rmax, Rmin.
  repeat destruct Rle_dec; lra.
Qed.

End ScalarValue.

Section ParserExamples.
Open Scope string_scope.

(** C4, evaluated: on the text "contrast: 30, saturation: -20" the code
    stores contrast 0.3 and no field besides contrast and saturation, but
    the saturation it stores is [-0], not [-0.2]: the negative number is
    clamped to 0 before the sign is applied. *)
Lemma parseAIResponse_percent_example :
  F64.parseAIResponse "contrast: 30, saturation: -20"
  = PartialLUTParams.mk (Some 0.3%float) (Some (-0)%float)
      None None None None None None None /\
  F64.scalarValue (F64.parseFloat "-20") = (-0)%float /\
  (F64.scalarValue (F64.parseFloat "-20") =? -0.2)%float = false /\
  (Ideal.scalarValue (-20) = 0)%R.
Proof.
  split; [vm_compute; reflexivity |].
  split; [vm_compute; reflexivity |].
  split; [vm_compute; reflexivity |].
  apply scalarValue_negative. lra.
Qed.

(** C9: whatever the input text, every scalar field present in the result
    of [parseAIResponse] is at least 0 (and at most 1), because a negative
    number [x] is clamped to 0 before its sign is put back; whereas a
    lift/gamma/gain channel always lies in [-1,1] and a value [c] of
    [-1,1], negative or not, is stored unchanged.  In binary64 the text
    "saturation: -20" gives [-0] and "lift: -0.5, 0.25, -1" gives
    (-0.5, 0.25, -1). *)
Theorem parseAIResponse_scalars_nonnegative (response : string)
    (key : ScalarKey.t) (v x c : R) :
  PartialLUTParams.getScalar key (Ideal.parseAIResponse response) = Some v ->
  (x < 0)%R -> (-1 <= c <= 1)%R ->
  (0 <= v <= 1)%R /\
  Ideal.scalarValue x = 0%R /\
  (-1 <= Ideal.channelValue x <= 1)%R /\
  Ideal.channelValue c = c /\
  PartialLUTParams.getScalar ScalarKey.saturation
    (F64.parseAIResponse "saturation: -20") = Some (-0)%float /\
  (0 <=? F64.scalarValue (F64.parseFloat "-20"))%float = true /\
  PartialLUTParams.getRGB RGBKey.lift
    (F64.parseAIResponse "lift: -0.5, 0.25, -1")
  = Some (mkRGB (-0.5) 0.25 (-1))%float.
Proof.
  intros Hv Hx Hc.
  split.
  - apply (scalarsAll_parseAIResponse Ideal.parseNumber Ideal.scalarValue
             Ideal.channelValue (fun v => (0 <= v <= 1)%R)
             (fun _ value _ => scalarValue_range value) response key v).
    exact Hv.
  - split; [apply scalarValue_negative; exact Hx |].
    split; [apply channelValue_range |].
    split; [apply channelValue_id; exact Hc |].
    repeat split; vm_compute; reflexivity.
Qed.

Lemma parseAIResponse_scalars_nonnegative_witness :
  PartialLUTParams.getScalar ScalarKey.saturation
    (Ideal.parseAIResponse "contrast: 30, saturation: -20") = Some 0%R /\
  (0 <= 0 <= 1)%R /\
  (Ideal.scalarValue (-20) = 0)%R /\
  (Ideal.channelValue (- / 2) = - / 2)%R.
Proof.
  assert (Hparse : PartialLUTParams.getScalar ScalarKey.saturation
            (Ideal.parseAIResponse "contrast: 30, saturation: -20")
          = Some 0%R).
  { unfold Ideal.parseAIResponse, Parser.parseAIResponse.
    cbn -[Ideal.scalarValue Ideal.channelValue Ideal.ofDecimal].
    f_equal. apply scalarValue_negative.
    unfold Ideal.ofDecimal. cbn. lra. }
  assert (Hx : (-20 < 0)%R) by lra.
  assert (Hc : (-1 <= - / 2 <= 1)%R) by lra.
  pose proof (parseAIResponse_scalars_nonnegative
                "contrast: 30, saturation: -20" ScalarKey.saturation
                0%R (-20)%R (- / 2)%R Hparse Hx Hc)
    as (Hrange & Hzero & _ & Hid & _).
  repeat split; assumption || lra.
Defined.

End ParserExamples.

(** C5, evaluated: for the analysis of a black image -- average colour
    (0, 0, 0) -- [analysisToLUTParams] divides 0 by [maxChannel = 0] and
    returns NaN in the three gain channels. *)
Lemma analysisToLUTParams_black_gain_NaN :
  LUTParams.gain
    (F64.analysisToLUTParams (ImageAnalysis.mk (mkRGB 0 0 0) 0 0 0 0)%float)
  = mkRGB nan nan nan /\
  is_nan
    (RGB.r (LUTParams.gain
       (F64.analysisToLUTParams
          (ImageAnalysis.mk (mkRGB 0 0 0) 0 0 0 0)%float)))
  = true.
Proof. split; vm_compute; reflexivity. Qed.



(** ** The histograms *)

Section Histograms.

Lemma allBytes_complete (c : Byte.byte) : In c Spec.allBytes.
Proof.
  assert (H : nth_error Spec.allBytes (Histogram.index c) = Some c)
    by (destruct c; vm_compute; reflexivity).
  apply nth_error_In with (n := Histogram.index c). exact H.
Qed.

Lemma index_bound (c : Byte.byte) : (Histogram.index c < 256)%nat.
Proof. destruct c; vm_compute; lia. Qed.

(** Checked on all 2^24 colours. *)
Lemma lumInRange_true : Spec.lumInRange Spec.channels = true.
Proof. vm_compute. reflexivity. Qed.

Lemma lumInRange_spec (l : list float) (fr fg fb : float) :
  Spec.lumInRange l = true ->
  In fr l -> In fg l -> In fb l ->
  (0 <=? F64.getLuminance fr fg fb * 255)%float = true /\
  (F64.getLuminance fr fg fb * 255 <? 256)%float = true.
Proof.
  unfold Spec.lumInRange. intros H Hr Hg Hb.
  rewrite forallb_forall in H. specialize (H fr Hr). cbv beta zeta in H.
  rewrite forallb_forall in H. specialize (H fg Hg). cbv beta zeta in H.
  rewrite forallb_forall in H. specialize (H fb Hb). cbv beta zeta in H.
  apply andb_prop in H. exact H.
Qed.

Lemma In_channels (c : Byte.byte) :
  In (F64.ofByte c / 255)%float Spec.channels.
Proof.
  unfold Spec.channels.
  apply (in_map (fun c => (F64.ofByte c / 255)%float)).
  apply allBytes_complete.
Qed.

(** The luminance index of every pixel is an index of the 256 bins. *)
Lemma lumIndex_bound (r g b : Byte.byte) :
  exists i, F64.lumIndex r g b = Some i /\ (i < 256)%nat.
Proof.
  destruct (lumInRange_spec Spec.channels _ _ _ lumInRange_true
              (In_channels r) (In_channels g) (In_channels b)) as [H0 H1].
  destruct (floorZ_bound _ H0 H1) as (z & Hz & Hrange).
  exists (Z.to_nat z). unfold F64.lumIndex. cbv zeta. rewrite Hz.
  destruct (0 <=? z)%Z eqn:Hsign; [| apply Z.leb_gt in Hsign; lia].
  split; [reflexivity | lia].
Qed.

(** [bins[i]++] inside the array adds one to the total and keeps the
    length. *)
Lemma increment_spec (i : nat) (bins : list nat) :
  (i < List.length bins)%nat ->
  exists bins', Histogram.increment i bins = Some bins' /\
    List.length bins' = List.length bins /\
    list_sum bins' = S (list_sum bins).
Proof.
  revert i. induction bins as [| v rest IH]; intros i Hi; simpl in Hi.
  - lia.
  - destruct i as [| i]; simpl.
    + exists (S v :: rest). repeat split.
    + destruct (IH i) as (rest' & Hinc & Hlen & Hsum); [lia |].
      rewrite Hinc. exists (v :: rest'). simpl.
      repeat split; [congruence | lia].
Qed.

Lemma countPixel_spec (n : nat) (h : Histogram.t nat) (px : Histogram.Pixel) :
  Spec.counted n h ->
  exists h', Histogram.countPixel F64.lumIndex h px = Some h' /\
             Spec.counted (S n) h'.
Proof.
  intros (Hr & Hg & Hb & Hl & Hsum). unfold Histogram.countPixel.
  destruct (increment_spec (Histogram.index (Histogram.red px)) (Histogram.r h))
    as (hr & -> & Hlr & Hsr); [rewrite Hr; apply index_bound |].
  destruct (increment_spec (Histogram.index (Histogram.green px))
              (Histogram.g h))
    as (hg & -> & Hlg & _); [rewrite Hg; apply index_bound |].
  destruct (increment_spec (Histogram.index (Histogram.blue px))
              (Histogram.b h))
    as (hb & -> & Hlb & _); [rewrite Hb; apply index_bound |].
  destruct (lumIndex_bound (Histogram.red px) (Histogram.green px)
              (Histogram.blue px)) as (i & -> & Hi).
  destruct (increment_spec i (Histogram.luminance h))
    as (hl & -> & Hll & _); [rewrite Hl; exact Hi |].
  exists (Histogram.mk hr hg hb hl). split; [reflexivity |].
  unfold Spec.counted. simpl. repeat split; congruence.
Qed.

Lemma countPixels_spec (data : list Histogram.Pixel) (n : nat)
    (h : Histogram.t nat) :
  Spec.counted n h ->
  exists h', Histogram.countPixels F64.lumIndex h data = Some h' /\
             Spec.counted (n + List.length data) h'.
Proof.
  revert n h. induction data as [| px rest IH]; intros n h Hh; simpl.
  - exists h. rewrite Nat.add_0_r. split; [reflexivity | exact Hh].
  - destruct (countPixel_spec n h px Hh) as (h1 & -> & H1).
    destruct (IH (S n) h1 H1) as (h' & Hrun & H').
    exists h'. split; [exact Hrun |].
    replace (n + S (List.length rest))%nat with (S n + List.length rest)%nat
      by lia.
    exact H'.
Qed.

(** The pixel loop always completes, with one red count per pixel. *)
Lemma counts_spec (data : list Histogram.Pixel) :
  exists c, Histogram.counts F64.lumIndex data = Some c /\
            Spec.counted (List.length data) c.
Proof.
  unfold Histogram.counts.
  apply (countPixels_spec data 0).
  unfold Spec.counted. repeat split.
Qed.

Lemma list_max_pos (l : list nat) :
  (0 < list_sum l)%nat -> (0 < list_max l)%nat.
Proof.
  induction l as [| v l IH]; simpl; intros H; [lia |].
  destruct v; [| lia]. simpl in H. specialize (IH H). lia.
Qed.

Lemma list_max_In (l : list nat) : l <> [] -> In (list_max l) l.
Proof.
  induction l as [| v l IH]; intros Hne; [contradiction |].
  simpl. destruct l as [| w l'].
  - left. simpl. lia.
  - destruct (Nat.max_dec v (list_max (w :: l'))) as [-> | ->].
    + left. reflexivity.
    + right. apply IH. discriminate.
Qed.

Lemma bins_normalize (scale : nat -> nat -> R) (ofCount : nat -> R)
    (c : Histogram.t nat) :
  (0 < Histogram.maxHistValue c)%nat ->
  Spec.bins (Histogram.normalize scale ofCount c)
  = map (fun v => scale v (Histogram.maxHistValue c)) (Spec.bins c).
Proof.
  intros Hpos. unfold Histogram.normalize.
  apply Nat.ltb_lt in Hpos. rewrite Hpos.
  unfold Spec.bins. simpl. rewrite !map_app. reflexivity.
Qed.

End Histograms.

(** C10: [analyzeImageData] divides the bins of the four histograms by one
    number, the largest bin count found in the R, G, B and luminance
    histograms taken together.  So for every non-empty pixel buffer the
    analysis succeeds, every bin of every histogram lies in [0,1] and at
    least one bin is exactly 1; and the largest bin of a single histogram
    can be smaller than 1: for the two pixels (255, 0, 0) and (254, 0, 0)
    no red bin exceeds 1/2, while the green bin 0 is 1 (in binary64 the red
    bins 255 and 254 are 0.5). *)
Theorem analyzeHistogram_joint_maximum (data : list Histogram.Pixel) :
  data <> [] ->
  (exists c h,
     Histogram.counts F64.lumIndex data = Some c /\
     Ideal.analyzeHistogram data = Some h /\
     Spec.bins h
     = map (fun v => (INR v / INR (list_max (Spec.bins c)))%R) (Spec.bins c) /\
     Forall (fun v => (0 <= v <= 1)%R) (Spec.bins h) /\
     Exists (fun v => v = 1%R) (Spec.bins h)) /\
  (exists h,
     Ideal.analyzeHistogram Spec.twoReds = Some h /\
     Forall (fun v => (v <= / 2)%R) (Histogram.r h) /\
     nth 0 (Histogram.g h) 0%R = 1%R) /\
  option_map
    (fun h => (nth 255 (Histogram.r h) 0, nth 254 (Histogram.r h) 0,
               nth 0 (Histogram.g h) 0,
               forallb (fun v => v <=? 0.5) (Histogram.r h))%float)
    (F64.analyzeHistogram Spec.twoReds)
  = Some (0.5, 0.5, 1, true)%float.
Proof.
  intros Hne. split; [| split].
  - destruct (counts_spec data) as (c & Hc & Hr & Hg & Hb & Hl & Hsum).
    assert (Hlen : (0 < List.length data)%nat)
      by (destruct data; [contradiction | simpl; lia]).
    assert (Hmax : (0 < Histogram.maxHistValue c)%nat).
    { unfold Histogram.maxHistValue. rewrite list_max_app.
      pose proof (list_max_pos (Histogram.r c)) as Hpos.
      rewrite Hsum in Hpos. specialize (Hpos Hlen). lia. }
    exists c, (Histogram.normalize
                 (fun v m => (Ideal.ofNat v / Ideal.ofNat m)%R) Ideal.ofNat c).
    split; [exact Hc |].
    split; [unfold Ideal.analyzeHistogram; rewrite Hc; reflexivity |].
    rewrite bins_normalize by exact Hmax.
    change (Histogram.maxHistValue c) with (list_max (Spec.bins c)) in *.
    set (m := list_max (Spec.bins c)) in *.
    assert (HmR : (0 < INR m)%R) by (apply lt_0_INR; exact Hmax).
    split; [reflexivity |]. split.
    + apply Forall_map. apply Forall_forall. intros v Hv.
      assert (Hle : (v <= m)%nat).
      { pose proof (proj1 (list_max_le (Spec.bins c) m) (Nat.le_refl _)) as Hall.
        rewrite Forall_forall in Hall. apply Hall. exact Hv. }
      apply le_INR in Hle. pose proof (pos_INR v) as Hv0.
      unfold Ideal.ofNat. split.
      * apply Rmult_le_pos; [exact Hv0 | left; apply Rinv_0_lt_compat; exact HmR].
      * apply Rmult_le_reg_r with (INR m); [exact HmR |].
        unfold Rdiv. rewrite Rmult_assoc, Rinv_l by lra. lra.
    + apply Exists_exists. exists (INR m / INR m)%R. split.
      * apply (in_map (fun v => (Ideal.ofNat v / Ideal.ofNat m)%R)).
        apply list_max_In. unfold Spec.bins.
        destruct (Histogram.r c); [discriminate Hr | discriminate].
      * unfold Rdiv. apply Rinv_r. lra.
  - assert (E : option_map
                  (fun c => (Histogram.maxHistValue c,
                             forallb (fun v => (v <=? 1)%nat) (Histogram.r c),
                             nth 0 (Histogram.g c) 0%nat))
                  (Histogram.counts F64.lumIndex Spec.twoReds)
                = Some (2%nat, true, 2%nat)) by (vm_compute; reflexivity).
    unfold Ideal.analyzeHistogram.
    destruct (Histogram.counts F64.lumIndex Spec.twoReds) as [c |];
      [| discriminate E].
    simpl in E. injection E as Hmax Hall Hg0.
    eexists. split; [reflexivity |].
    unfold Histogram.normalize. rewrite Hmax. simpl Histogram.r.
    simpl Histogram.g. split.
    + apply Forall_map. apply Forall_forall. intros v Hv.
      rewrite forallb_forall in Hall. specialize (Hall v Hv).
      apply Nat.leb_le in Hall. apply le_INR in Hall.
      pose proof (pos_INR v). unfold Ideal.ofNat.
      change (INR 1) with 1%R in Hall. change (INR 2) with (1 + 1)%R. lra.
    + destruct (Histogram.g c) as [| g0 gs]; [discriminate Hg0 |].
      simpl in Hg0. subst g0. simpl. unfold Ideal.ofNat.
      change (INR 2) with (1 + 1)%R. lra.
  - vm_compute. reflexivity.
Qed.

Lemma analyzeHistogram_joint_maximum_witness :
  Spec.twoReds <> [] /\
  exists h,
    Ideal.analyzeHistogram Spec.twoReds = Some h /\
    Forall (fun v => (0 <= v <= 1)%R) (Spec.bins h) /\
    Exists (fun v => v = 1%R) (Spec.bins h).
Proof.
  assert (Hne : Spec.twoReds <> []) by discriminate.
  split; [exact Hne |].
  destruct (analyzeHistogram_joint_maximum Spec.twoReds Hne)
    as ((c & h & _ & Hh & _ & Hall & Hone) & _).
  exists h. repeat split; assumption.
Defined.

(** * Further properties of the code *)

(** ** The stages of the pipeline, one by one *)

Section Stages.
Import Ideal.
Open Scope R_scope.

Lemma contrast_factor_nonneg (c : R) :
  -1 <= c <= 1 -> 0 <= (1 + c) / (1 - c * 0.99).
Proof.
  intros Hc. apply Rmult_le_pos; [lra |].
  left. apply Rinv_0_lt_compat. lra.
Qed.

Lemma clamp_monotone (x y : R) : x <= y -> clamp x <= clamp y.
Proof. intros H. minmax. Qed.

(** X1: The contrast curve pivots on mid-gray: for every contrast of [-1,1],
    0.5 is a fixed point, the curve never reverses the order of two values,
    and at contrast -1 it sends every value to 0.5. *)
Theorem applyContrast_pivot (c v1 v2 : R) :
  -1 <= c <= 1 -> v1 <= v2 ->
  applyContrast 0.5 c = 0.5 /\
  applyContrast v1 c <= applyContrast v2 c /\
  applyContrast v1 (-1) = 0.5.
Proof.
  intros Hc Hv. pose proof (contrast_factor_nonneg c Hc) as Hf.
  unfold applyContrast. repeat split.
  - replace ((0.5 - 0.5) * ((1 + c) / (1 - c * 0.99)) + 0.5) with 0.5 by lra.
    apply clamp_id. lra.
  - apply clamp_monotone.
    apply Rplus_le_compat_r. apply Rmult_le_compat_r; [exact Hf | lra].
  - replace ((v1 - 0.5) * ((1 + -1) / (1 - -1 * 0.99)) + 0.5) with 0.5
      by (field; lra).
    apply clamp_id. lra.
Qed.

Lemma applyContrast_pivot_witness :
  applyContrast 0.5 (/ 2) = 0.5 /\
  applyContrast 0 (/ 2) <= applyContrast 1 (/ 2) /\
  applyContrast 0 (-1) = 0.5.
Proof. apply (applyContrast_pivot (/ 2) 0 1); lra. Defined.

(** X2: Saturation never tints a gray: a triple with three equal channels of
    [0,1] is returned unchanged, whatever the saturation. *)
Theorem applySaturation_gray_fixed (v s : R) :
  0 <= v <= 1 -> applySaturation v v v s = (v, v, v).
Proof.
  intros Hv. unfold applySaturation.
  replace (0.299 * v + 0.587 * v + 0.114 * v) with v by lra.
  replace (v + (v - v) * (1 + s)) with v by lra.
  rewrite clamp_id by exact Hv. reflexivity.
Qed.

Lemma applySaturation_gray_fixed_witness :
  applySaturation (/ 2) (/ 2) (/ 2) 1 = (/ 2, / 2, / 2).
Proof. apply (applySaturation_gray_fixed (/ 2) 1). lra. Defined.

(** X3: Desaturating (saturation in [-1,0]) moves each channel towards the luma
    without clipping, so the luma of the triple is preserved. *)
Theorem applySaturation_preserves_luma (r g b s : R) :
  0 <= r <= 1 -> 0 <= g <= 1 -> 0 <= b <= 1 -> -1 <= s <= 0 ->
  Spec.luma (applySaturation r g b s) = Spec.luma (r, g, b).
Proof.
  intros Hr Hg Hb Hs. unfold applySaturation, Spec.luma.
  set (l := 0.299 * r + 0.587 * g + 0.114 * b).
  assert (Hl : 0 <= l <= 1) by (unfold l; lra).
  assert (Hin : forall x, 0 <= x <= 1 -> 0 <= l + (x - l) * (1 + s) <= 1).
  { intros x Hx. replace (l + (x - l) * (1 + s)) with (l * - s + x * (1 + s))
      by lra. nra. }
  rewrite !clamp_id by (apply Hin; assumption).
  unfold l. lra.
Qed.

Lemma applySaturation_preserves_luma_witness :
  Spec.luma (applySaturation 1 0 (/ 2) (- / 2)) = Spec.luma (1, 0, / 2).
Proof. apply (applySaturation_preserves_luma 1 0 (/ 2) (- / 2)); lra. Defined.

End Stages.

Section Tones.
Import Ideal.
Open Scope R_scope.

Lemma shChannel_unit (s h v : R) : 0 <= v <= 1 -> 0 <= shChannel s h v <= 1.
Proof.
  intros Hv. unfold shChannel.
  destruct ((v <? 0.5) && negb (s =? 0)).
  - destruct ((0.5 <? _) && negb (h =? 0)); apply clamp_range.
  - destruct ((0.5 <? v) && negb (h =? 0)); [apply clamp_range | exact Hv].
Qed.

Lemma clamp_lt_half (x : R) : x < 0.5 -> clamp x < 0.5.
Proof. intros H. minmax. Qed.

Lemma clamp_gt_half (x : R) : 0.5 < x -> 0.5 < clamp x.
Proof. intros H. minmax. Qed.

(** X4: The shadows control only moves values below 0.5 and keeps them below
    0.5; the highlights control only moves values above 0.5 and keeps them
    above 0.5; mid-gray is never moved.  So the two controls act on
    disjoint halves of the tonal range and cannot undo each other. *)
Theorem applyShadowsHighlights_halves (s h lo hi : R) :
  -1 <= s <= 1 -> -1 <= h <= 1 -> 0 <= lo < 0.5 -> 0.5 < hi <= 1 ->
  shChannel s h lo < 0.5 /\ shChannel s h lo = shChannel s 0 lo /\
  0.5 < shChannel s h hi /\ shChannel s h hi = shChannel 0 h hi /\
  shChannel s h 0.5 = 0.5.
Proof.
  intros Hs Hh Hlo Hhi.
  assert (Low : forall h', shChannel s h' lo
                = if negb (s =? 0) then clamp (lo + s * 0.15 * (1 - lo / 0.5))
                  else lo).
  { intros h'. unfold shChannel. rewrite (ltb_true lo 0.5) by lra.
    simpl andb. destruct (negb (s =? 0)).
    - rewrite (ltb_false 0.5) by (left; apply clamp_lt_half; nra).
      reflexivity.
    - rewrite (ltb_false 0.5 lo) by lra. reflexivity. }
  assert (High : forall s', shChannel s' h hi
                 = if negb (h =? 0)
                   then clamp (hi + h * 0.15 * ((hi - 0.5) / 0.5))
                   else hi).
  { intros s'. unfold shChannel. rewrite (ltb_false hi 0.5) by lra.
    simpl andb. rewrite (ltb_true 0.5 hi) by lra. reflexivity. }
  repeat split.
  - rewrite Low. destruct (negb (s =? 0)); [apply clamp_lt_half; nra | lra].
  - rewrite !Low. reflexivity.
  - rewrite High.
    destruct (negb (h =? 0)); [apply clamp_gt_half; nra | lra].
  - rewrite !High. reflexivity.
  - unfold shChannel. rewrite (ltb_false 0.5 0.5) by lra. simpl andb.
    cbv iota. rewrite (ltb_false 0.5 0.5) by lra. reflexivity.
Qed.

Lemma applyShadowsHighlights_halves_witness :
  shChannel 1 (-1) 0 < 0.5 /\ shChannel 1 (-1) 0 = shChannel 1 0 0 /\
  0.5 < shChannel 1 (-1) 1 /\ shChannel 1 (-1) 1 = shChannel 0 (-1) 1 /\
  shChannel 1 (-1) 0.5 = 0.5.
Proof. apply (applyShadowsHighlights_halves 1 (-1) 0 1); lra. Defined.

(** X5: Lift and gamma leave white in place, and gamma and gain leave black in
    place: the lift offset is weighted by [1 - value], and the gain
    multiplies. *)
Theorem applyLiftGammaGain_endpoints (liftVal gammaVal gainVal : R) :
  -1 <= liftVal <= 1 -> -1 <= gammaVal <= 1 -> -1 <= gainVal <= 1 ->
  lggChannel 1 liftVal gammaVal 0 = 1 /\
  lggChannel 0 0 gammaVal gainVal = 0.
Proof.
  intros Hl Hg Hk. unfold lggChannel, liftScale, gammaScale, gainScale.
  assert (Hp : 0 < 1 / (1 + gammaVal * 0.2)).
  { unfold Rdiv. rewrite Rmult_1_l. apply Rinv_0_lt_compat. lra. }
  split.
  - replace (1 + liftVal * 0.1 * (1 - 1)) with 1 by lra.
    replace (Math_max 0 1) with 1 by minmax.
    unfold Math_pow. rewrite eqb_false by lra. rewrite ltb_true by lra.
    rewrite Rpower_base_one.
    replace (1 * (1 + 0 * 0.2)) with 1 by lra. apply clamp_id. lra.
  - replace (0 + 0 * 0.1 * (1 - 0)) with 0 by lra.
    replace (Math_max 0 0) with 0 by minmax.
    unfold Math_pow. rewrite eqb_false by lra. rewrite ltb_false by lra.
    rewrite Rmult_0_l. apply clamp_id. lra.
Qed.

Lemma applyLiftGammaGain_endpoints_witness :
  lggChannel 1 1 (-1) 0 = 1 /\ lggChannel 0 0 (-1) 1 = 0.
Proof. apply (applyLiftGammaGain_endpoints 1 (-1) 1); lra. Defined.

Lemma lggChannel_unit (v l g k : R) : 0 <= lggChannel v l g k <= 1.
Proof. unfold lggChannel. apply clamp_range. Qed.

Lemma transformColor_gray_ideal (v : R) (p : LUTParams R) :
  RGB.r p.(LUTParams.lift) = RGB.g p.(LUTParams.lift) ->
  RGB.g p.(LUTParams.lift) = RGB.b p.(LUTParams.lift) ->
  RGB.r p.(LUTParams.gamma) = RGB.g p.(LUTParams.gamma) ->
  RGB.g p.(LUTParams.gamma) = RGB.b p.(LUTParams.gamma) ->
  RGB.r p.(LUTParams.gain) = RGB.g p.(LUTParams.gain) ->
  RGB.g p.(LUTParams.gain) = RGB.b p.(LUTParams.gain) ->
  p.(LUTParams.temperature) = 0 -> p.(LUTParams.tint) = 0 ->
  exists w, 0 <= w <= 1 /\ transformColor v v v p = (w, w, w).
Proof.
  intros L1 L2 G1 G2 K1 K2 Ht Hi.
  set (y := shChannel p.(LUTParams.shadows) p.(LUTParams.highlights)
              (lggChannel v (RGB.r p.(LUTParams.lift))
                 (RGB.r p.(LUTParams.gamma)) (RGB.r p.(LUTParams.gain)))).
  assert (Hy : 0 <= y <= 1)
    by (apply shChannel_unit; apply lggChannel_unit).
  exists (applyContrast y p.(LUTParams.contrast)).
  split; [apply applyContrast_unit |].
  unfold transformColor, applyLiftGammaGain, applyShadowsHighlights.
  unfold num in *.
  rewrite <- L2, <- L1, <- G2, <- G1, <- K2, <- K1, Ht, Hi.
  fold y.
  rewrite applyTemperature_neutral by exact Hy.
  pose proof (applyContrast_unit y p.(LUTParams.contrast)) as Hw.
  set (w := applyContrast y p.(LUTParams.contrast)) in *.
  unfold applySaturation.
  replace (0.299 * w + 0.587 * w + 0.114 * w) with w by lra.
  replace (w + (w - w) * (1 + p.(LUTParams.saturation))) with w by lra.
  rewrite clamp_id by exact Hw. reflexivity.
Qed.

(** X6: For parameters in [-1,1], a grade that treats the three channels
    alike (equal lift, gamma and gain channels, no temperature and no tint)
    maps every gray to a gray: every operation has a real value, and the
    three results are one number of [0,1]. *)
Theorem transformColor_gray_axis (v : R) (p : LUTParams R) :
  Spec.validParams p ->
  RGB.r p.(LUTParams.lift) = RGB.g p.(LUTParams.lift) ->
  RGB.g p.(LUTParams.lift) = RGB.b p.(LUTParams.lift) ->
  RGB.r p.(LUTParams.gamma) = RGB.g p.(LUTParams.gamma) ->
  RGB.g p.(LUTParams.gamma) = RGB.b p.(LUTParams.gamma) ->
  RGB.r p.(LUTParams.gain) = RGB.g p.(LUTParams.gain) ->
  RGB.g p.(LUTParams.gain) = RGB.b p.(LUTParams.gain) ->
  p.(LUTParams.temperature) = 0 -> p.(LUTParams.tint) = 0 ->
  exists w, 0 <= w <= 1 /\
    Checked.transformColor (Checked.real v) (Checked.real v)
      (Checked.real v) (Checked.ofParams p)
    = (Checked.real w, Checked.real w, Checked.real w).
Proof.
  intros Hp L1 L2 G1 G2 K1 K2 Ht Hi.
  destruct (transformColor_gray_ideal v p L1 L2 G1 G2 K1 K2 Ht Hi)
    as (w & Hw & Heq).
  exists w. split; [exact Hw |].
  rewrite (Checked_transformColor v v v p Hp), Heq. reflexivity.
Qed.

Lemma transformColor_gray_axis_witness :
  exists w, 0 <= w <= 1 /\
    Checked.transformColor (Checked.real (/ 4)) (Checked.real (/ 4))
      (Checked.real (/ 4))
      (Checked.ofParams
         (mkLUTParams (/ 2) (/ 2) 0 0 (/ 2) 0 (mkRGB 0 0 0) (mkRGB 0 0 0)
            (mkRGB 0 0 0)))
    = (Checked.real w, Checked.real w, Checked.real w).
Proof.
  apply (transformColor_gray_axis (/ 4)
           (mkLUTParams (/ 2) (/ 2) 0 0 (/ 2) 0 (mkRGB 0 0 0) (mkRGB 0 0 0)
              (mkRGB 0 0 0))); try reflexivity.
  unfold Spec.validParams, Spec.signedRGB, Spec.inSigned. cbn.
  repeat split; lra.
Defined.

End Tones.

Section Range.
Import Ideal.
Open Scope R_scope.

Lemma applyInverseHEVCGammaCompensation_eq (w : R) :
  0 <= w <= 1 ->
  applyInverseHEVCGammaCompensation w
  = Math_pow w (standardGamma * (1 / hevcGamma)).
Proof.
  intros Hw. unfold applyInverseHEVCGammaCompensation.
  rewrite Math_max_unit by exact Hw.
  apply Math_pow_pow; unfold hevcGamma, standardGamma; lra.
Qed.

Lemma applyInverseHEVCGammaCompensation_unit (w : R) :
  0 <= w <= 1 -> 0 <= applyInverseHEVCGammaCompensation w <= 1.
Proof.
  intros Hw. rewrite applyInverseHEVCGammaCompensation_eq by exact Hw.
  apply Math_pow_unit; [exact Hw | unfold hevcGamma, standardGamma; lra].
Qed.

(** X7: On [0,1] the pre-pass of the HEVC wrapper undoes its post-pass: range
    expansion inverts range compression, and the gamma remap inverts the
    inverse gamma remap. *)
Theorem hevc_prepass_inverts_postpass (u : R) :
  0 <= u <= 1 ->
  limitedToFull (fullToLimited u) = u /\
  applyHEVCGammaCompensation (applyInverseHEVCGammaCompensation u) = u.
Proof.
  intros Hu. split.
  - unfold limitedToFull, fullToLimited.
    rewrite (clamp_id (u * (0.9216 - 0.0627) + 0.0627)) by lra.
    replace ((u * (0.9216 - 0.0627) + 0.0627 - 0.0627) / (0.9216 - 0.0627))
      with u by (field; lra).
    apply clamp_id. exact Hu.
  - pose proof (applyInverseHEVCGammaCompensation_unit u Hu) as Hw.
    rewrite applyHEVCGammaCompensation_eq by exact Hw.
    rewrite applyInverseHEVCGammaCompensation_eq by exact Hu.
    rewrite Math_pow_pow; try (unfold hevcGamma, standardGamma; lra).
    replace (standardGamma * (1 / hevcGamma) * (hevcGamma * (1 / standardGamma)))
      with 1 by (unfold hevcGamma, standardGamma; field; lra).
    apply Math_pow_one. lra.
Qed.

Lemma hevc_prepass_inverts_postpass_witness :
  limitedToFull (fullToLimited (/ 2)) = / 2 /\
  applyHEVCGammaCompensation (applyInverseHEVCGammaCompensation (/ 2)) = / 2.
Proof. apply (hevc_prepass_inverts_postpass (/ 2)). lra. Defined.

(** X8: For parameters in [-1,1] and every input, every operation of
    [transformColorHEVC] has a real value and every channel it returns lies
    in the legal range [0.0627, 0.9216]. *)
Theorem transformColorHEVC_legal_range (r g b : R) (p : LUTParams R) :
  Spec.validParams p ->
  exists r' g' b',
    Checked.transformColorHEVC (Checked.real r) (Checked.real g)
      (Checked.real b) (Checked.ofParams p)
    = (Checked.real r', Checked.real g', Checked.real b') /\
    0.0627 <= r' <= 0.9216 /\ 0.0627 <= g' <= 0.9216 /\
    0.0627 <= b' <= 0.9216.
Proof.
  intros Hp. rewrite (Checked_transformColorHEVC r g b p Hp).
  unfold transformColorHEVC.
  pose proof (transformColor_unit
                (applyHEVCGammaCompensation (limitedToFull r))
                (applyHEVCGammaCompensation (limitedToFull g))
                (applyHEVCGammaCompensation (limitedToFull b)) p) as Hunit.
  destruct (transformColor _ _ _ p) as [[rG gG] bG].
  destruct Hunit as (Hr & Hg & Hb).
  assert (Legal : forall x, 0 <= x <= 1 ->
            0.0627 <= fullToLimited (applyInverseHEVCGammaCompensation x)
            <= 0.9216).
  { intros x Hx. pose proof (applyInverseHEVCGammaCompensation_unit x Hx).
    unfold fullToLimited. rewrite clamp_id; nra. }
  cbv zeta.
  exists (fullToLimited (applyInverseHEVCGammaCompensation rG)),
    (fullToLimited (applyInverseHEVCGammaCompensation gG)),
    (fullToLimited (applyInverseHEVCGammaCompensation bG)).
  split; [reflexivity |].
  repeat split; apply Legal; assumption.
Qed.

Lemma transformColorHEVC_legal_range_witness :
  exists r' g' b',
    Checked.transformColorHEVC (Checked.real 0) (Checked.real 1)
      (Checked.real (/ 2))
      (Checked.ofParams
         (mkLUTParams 1 (-1) (/ 2) 0 0 0 (mkRGB 0 0 0) (mkRGB 1 0 (-1))
            (mkRGB 0 0 0)))
    = (Checked.real r', Checked.real g', Checked.real b') /\
    0.0627 <= r' <= 0.9216 /\ 0.0627 <= g' <= 0.9216 /\
    0.0627 <= b' <= 0.9216.
Proof.
  apply (transformColorHEVC_legal_range 0 1 (/ 2)
           (mkLUTParams 1 (-1) (/ 2) 0 0 0 (mkRGB 0 0 0) (mkRGB 1 0 (-1))
              (mkRGB 0 0 0))).
  unfold Spec.validParams, Spec.signedRGB, Spec.inSigned. cbn.
  repeat split; lra.
Defined.

End Range.

(** X9: In binary64, whatever the input and the parameters (NaN and
    infinities included) and whatever the engine's approximation of
    [Math.pow], every channel returned by [transformColor] is NaN or lies in
    [0,1]: the last stage clamps each channel. *)
Theorem transformColor_binary64_range (approx : float -> float -> float)
    (r g b : float) (p : LUTParams float) :
  Spec.unitOrNaN3 (F64.transformColor approx r g b p) = true.
Proof.
  unfold F64.transformColor.
  destruct (F64.applyLiftGammaGain _ _ _ _ _ _ _) as [[r1 g1] b1].
  destruct (F64.applyShadowsHighlights _ _ _ _ _) as [[r2 g2] b2].
  destruct (F64.applyTemperature _ _ _ _ _) as [[r3 g3] b3].
  cbv zeta. unfold F64.applySaturation, Spec.unitOrNaN3. cbv zeta.
  rewrite !clamp_unitOrNaN. reflexivity.
Qed.

(** X10: In binary64, every field of the parameters returned by
    [analysisToLUTParams] is NaN or lies in [-1,1], whatever the analysis. *)
Theorem analysisToLUTParams_fields_range (analysis : ImageAnalysis.t float) :
  Spec.signedOrNaNParams (F64.analysisToLUTParams analysis) = true.
Proof.
  unfold F64.analysisToLUTParams, Spec.signedOrNaNParams, Spec.signedOrNaNRGB.
  cbv zeta. cbn [LUTParams.contrast LUTParams.saturation LUTParams.temperature
    LUTParams.tint LUTParams.shadows LUTParams.highlights LUTParams.lift
    LUTParams.gamma LUTParams.gain RGB.r RGB.g RGB.b].
  rewrite !clampSigned_signedOrNaN. reflexivity.
Qed.

(** ** The text of the cube file *)

Section CubeText.
Open Scope string_scope.

(** X11: The file has 10 header lines (12 in the HEVC format) followed by one
    line per grid point; the first line carries the title in double quotes
    and the size line reads [LUT_3D_SIZE] followed by the size. *)
Theorem cubeLines_layout (approx : float -> float -> float)
    (params : LUTParams float) (title : string) (size : nat)
    (format : LUTOutputFormat) :
  let lines :=
    Cube.cubeLines F64.gridInput (F64.transformColor approx)
      (F64.transformColorHEVC approx) F64.toFixed6 params title size format in
  let headerLength := match format with standard => 10 | hevc => 12 end in
  List.length lines = (headerLength + size ^ 3)%nat /\
  hd_error lines = Some ("TITLE " ++ Text.quote ++ title ++ Text.quote) /\
  nth_error lines (headerLength - 5)
  = Some ("LUT_3D_SIZE " ++ Text.digitsOf (N.of_nat size)) /\
  skipn headerLength lines = Spec.dataLines64 approx params size format.
Proof.
  cbv zeta. unfold Cube.cubeLines, Spec.dataLines64.
  rewrite length_app. unfold Cube.dataLines. rewrite length_cubeLoop.
  destruct format; repeat split; reflexivity.
Qed.

End CubeText.

(** ** The four histograms *)

Section Totals.

Lemma countPixel_totals (n : nat) (h : Histogram.t nat) (px : Histogram.Pixel) :
  Spec.totals n h ->
  exists h', Histogram.countPixel F64.lumIndex h px = Some h' /\
             Spec.totals (S n) h'.
Proof.
  intros ((Hr & Sr) & (Hg & Sg) & (Hb & Sb) & (Hl & Sl)).
  unfold Histogram.countPixel.
  destruct (increment_spec (Histogram.index (Histogram.red px)) (Histogram.r h))
    as (hr & -> & Hlr & Hsr); [rewrite Hr; apply index_bound |].
  destruct (increment_spec (Histogram.index (Histogram.green px))
              (Histogram.g h))
    as (hg & -> & Hlg & Hsg); [rewrite Hg; apply index_bound |].
  destruct (increment_spec (Histogram.index (Histogram.blue px))
              (Histogram.b h))
    as (hb & -> & Hlb & Hsb); [rewrite Hb; apply index_bound |].
  destruct (lumIndex_bound (Histogram.red px) (Histogram.green px)
              (Histogram.blue px)) as (i & -> & Hi).
  destruct (increment_spec i (Histogram.luminance h))
    as (hl & -> & Hll & Hsl); [rewrite Hl; exact Hi |].
  exists (Histogram.mk hr hg hb hl). split; [reflexivity |].
  unfold Spec.totals. simpl. repeat split; congruence.
Qed.

Lemma countPixels_totals (data : list Histogram.Pixel) (n : nat)
    (h : Histogram.t nat) :
  Spec.totals n h ->
  exists h', Histogram.countPixels F64.lumIndex h data = Some h' /\
             Spec.totals (n + List.length data) h'.
Proof.
  revert n h. induction data as [| px rest IH]; intros n h Hh; simpl.
  - exists h. rewrite Nat.add_0_r. split; [reflexivity | exact Hh].
  - destruct (countPixel_totals n h px Hh) as (h1 & -> & H1).
    destruct (IH (S n) h1 H1) as (h' & Hrun & H').
    exists h'. split; [exact Hrun |].
    replace (n + S (List.length rest))%nat with (S n + List.length rest)%nat
      by lia.
    exact H'.
Qed.

End Totals.

(** X12: For every pixel buffer the pixel loop of [analyzeImageData] completes
    without writing outside its arrays, and each of the four histograms
    keeps 256 bins whose counts add up to the number of pixels. *)
Theorem counts_totals (data : list Histogram.Pixel) :
  exists c, Histogram.counts F64.lumIndex data = Some c /\
            Spec.totals (List.length data) c.
Proof.
  unfold Histogram.counts.
  apply (countPixels_totals data 0).
  unfold Spec.totals. repeat split.
Qed.

(** ** The colour fields of the free-text extractor *)

Section ParserChannels.
Context {num : Type}.
Variable parseNumber : string -> option num.
Variable scalarValue : num -> num.
Variable channelValue : num -> num.
Variable P : num -> Prop.
Hypothesis P_channelValue : forall c, P (channelValue c).

Lemma channelsAll_empty : Spec.channelsAll P PartialLUTParams.empty.
Proof. intros key c H. destruct key; discriminate H. Qed.

Lemma channelsAll_setScalar (key : ScalarKey.t) (v : num)
    (p : PartialLUTParams.t num) :
  Spec.channelsAll P p ->
  Spec.channelsAll P (PartialLUTParams.setScalar key v p).
Proof.
  intros Hp key' c H. destruct p.
  destruct key, key'; simpl in H;
    first [ apply (Hp RGBKey.lift c H)
          | apply (Hp RGBKey.gamma c H)
          | apply (Hp RGBKey.gain c H) ].
Qed.

Lemma channelsAll_setRGB (key : RGBKey.t) (c : RGB num)
    (p : PartialLUTParams.t num) :
  P c.(RGB.r) /\ P c.(RGB.g) /\ P c.(RGB.b) ->
  Spec.channelsAll P p ->
  Spec.channelsAll P (PartialLUTParams.setRGB key c p).
Proof.
  intros Hc Hp key' c' H. destruct p.
  destruct key, key'; simpl in H;
    try (injection H as <-; exact Hc);
    first [ apply (Hp RGBKey.lift c' H)
          | apply (Hp RGBKey.gamma c' H)
          | apply (Hp RGBKey.gain c' H) ].
Qed.

Lemma channelsAll_scalarStep (response : string) (p : PartialLUTParams.t num)
    (entry : ScalarKey.t * Text.regex) :
  Spec.channelsAll P p ->
  Spec.channelsAll P
    (Parser.scalarStep parseNumber scalarValue response p entry).
Proof.
  intros Hp. unfold Parser.scalarStep. destruct entry as [key pattern].
  destruct (Text.regexMatch pattern response) as [[| m1 ms] |]; try exact Hp.
  destruct (parseNumber m1) as [value |]; [| exact Hp].
  apply channelsAll_setScalar. exact Hp.
Qed.

Lemma channelsAll_rgbStep (response : string) (p : PartialLUTParams.t num)
    (entry : RGBKey.t * Text.regex) :
  Spec.channelsAll P p ->
  Spec.channelsAll P
    (Parser.rgbStep parseNumber channelValue response p entry).
Proof.
  intros Hp. unfold Parser.rgbStep. destruct entry as [key pattern].
  destruct (Text.regexMatch pattern response) as [[| m1 [| m2 [| m3 ms]]] |];
    try exact Hp.
  destruct (parseNumber m1), (parseNumber m2), (parseNumber m3);
    try exact Hp.
  apply channelsAll_setRGB; [| exact Hp].
  simpl. repeat split; apply P_channelValue.
Qed.

Lemma channelsAll_fold {E : Type}
    (step : PartialLUTParams.t num -> E -> PartialLUTParams.t num)
    (entries : list E) (p : PartialLUTParams.t num) :
  (forall q e, Spec.channelsAll P q -> Spec.channelsAll P (step q e)) ->
  Spec.channelsAll P p -> Spec.channelsAll P (fold_left step entries p).
Proof.
  intros Hstep. revert p. induction entries as [| e es IH]; intros p Hp.
  - exact Hp.
  - simpl. apply IH. apply Hstep. exact Hp.
Qed.

Lemma channelsAll_parseAIResponse (response : string) :
  Spec.channelsAll P
    (Parser.parseAIResponse parseNumber scalarValue channelValue response).
Proof.
  unfold Parser.parseAIResponse.
  apply channelsAll_fold; [intros q e; apply channelsAll_rgbStep |].
  apply channelsAll_fold; [intros q e; apply channelsAll_scalarStep |].
  apply channelsAll_empty.
Qed.

End ParserChannels.

(** X13: Whatever the text, every lift, gamma or gain colour that
    [parseAIResponse] returns has its three channels in [-1,1]. *)
Theorem parseAIResponse_channels_range (response : string) (key : RGBKey.t)
    (c : RGB R) :
  PartialLUTParams.getRGB key (Ideal.parseAIResponse response) = Some c ->
  Spec.signedRGB c.
Proof.
  intros H.
  exact (channelsAll_parseAIResponse Ideal.parseNumber Ideal.scalarValue
           Ideal.channelValue Spec.inSigned channelValue_range response
           key c H).
Qed.

Lemma parseAIResponse_channels_range_witness :
  Spec.signedRGB
    (mkRGB (Ideal.channelValue (Ideal.ofDecimal (Text.mkDecimal false 50 0)))
           (Ideal.channelValue (Ideal.ofDecimal (Text.mkDecimal true 25 2)))
           (Ideal.channelValue (Ideal.ofDecimal (Text.mkDecimal false 0 0)))).
Proof.
  apply (parseAIResponse_channels_range "gain: 50, -0.25, 0" RGBKey.gain).
  unfold Ideal.parseAIResponse, Parser.parseAIResponse.
  cbn -[Ideal.scalarValue Ideal.channelValue Ideal.ofDecimal].
  reflexivity.
Defined.

(** X14: A reply in the usual shape is read field by field: keywords match in
    any letter case, a percentage is divided by 100, and fields that are not
    named stay absent. *)
Lemma parseAIResponse_reply_example :
  let p :=
    F64.parseAIResponse
      "Contrast: 0.25, SATURATION: 50, shadow: 0.5, Gamma: 0.5, 0, 1" in
  PartialLUTParams.getScalar ScalarKey.contrast p = Some 0.25%float /\
  PartialLUTParams.getScalar ScalarKey.saturation p = Some 0.5%float /\
  PartialLUTParams.getScalar ScalarKey.shadows p = Some 0.5%float /\
  PartialLUTParams.getScalar ScalarKey.tint p = None /\
  PartialLUTParams.getRGB RGBKey.gamma p = Some (mkRGB 0.5 0 1)%float /\
  PartialLUTParams.getRGB RGBKey.lift p = None.
Proof. vm_compute. repeat split; reflexivity. Qed.
